(** * Image-layer service of the registry: [registry/images.py]

    A shallow embedding of the layer inventory reader
    ([_serialize_tar_info], [_read_tarfile]), the upload handlers
    ([put_image_json], [put_image_layer]), the inventory endpoint
    ([get_image_files]) and the diff engine ([_get_image_diff]), followed by
    the properties established about them.

    Conventions of the embedding.
    - Python [str] is [string]; [s.startswith(p)] is [String.prefix p s] and
      [s[n:]] is [slice_from n s].
    - A Python [dict] is a [gmap]; a list is a [list].
    - A raised exception is the [Raise] outcome of [result]; handlers run in
      the state-and-exception monad [M] over the [World] (object store and
      session).  An exception that leaves a handler is an internal failure of
      the request, not a reply built by the handler.
    - The object store keeps, per image id, the artifacts as the values that
      [json.dumps] serialises and [json.loads] reads back.  A serialised
      inventory or diff is never the empty string, so the tests
      [if files_json:] and [if diff_json:] are tests of presence. *)

From Stdlib Require Import String Ascii ZArith List Bool.
From stdpp Require Import base option list gmap strings.

Open Scope string_scope.
Open Scope Z_scope.

Set Warnings "-register-all,-clear-no-such-hyp".

(** ** Python values and exceptions *)

Inductive exn : Type :=
  | IOError
  | OSError
  | KeyError (key : string)
  | TarError
  | UnboundLocalError (var : string)
  | TypeError.

Inductive result (A : Type) : Type :=
  | Ok (a : A)
  | Raise (e : exn).
Arguments Ok {A} a.
Arguments Raise {A} e.

Definition result_bind {A B} (r : result A) (k : A → result B) : result B :=
  match r with
  | Ok a => k a
  | Raise e => Raise e
  end.

Notation "x ←r e ; k" := (result_bind e (λ x, k))
  (at level 100, e at next level, k at level 200, right associativity).

(** [filename.startswith(p)] *)
Definition startswith (p s : string) : bool := String.prefix p s.

(** [s[n:]] *)
Fixpoint slice_from (n : nat) (s : string) : string :=
  match n, s with
  | O, _ => s
  | S n', String _ s' => slice_from n' s'
  | S _, EmptyString => EmptyString
  end.

(** [sub in s] on strings. *)
Fixpoint contains (sub s : string) : bool :=
  startswith sub s ||
  match s with
  | EmptyString => false
  | String _ s' => contains sub s'
  end.

(** [d[k]] on a dict with string keys: [KeyError] when the key is missing. *)
Definition dict_getitem {V} (d : gmap string V) (k : string) : result V :=
  match d !! k with
  | Some v => Ok v
  | None => Raise (KeyError k)
  end.

(** [[f(x) for x in xs]]: the first exception raised ends the comprehension. *)
Fixpoint list_comprehension {A B} (f : A → result B) (xs : list A)
  : result (list B) :=
  match xs with
  | [] => Ok []
  | x :: xs' =>
      y ←r f x;
      ys ←r list_comprehension f xs';
      Ok (y :: ys)
  end.

(** ** Tar members *)

(** The member type bytes of Python's [tarfile] module. *)
Module tarfile.
Definition REGTYPE : string := "0".
Definition AREGTYPE : string := String zero EmptyString.
Definition LNKTYPE : string := "1".
Definition SYMTYPE : string := "2".
Definition CHRTYPE : string := "3".
Definition BLKTYPE : string := "4".
Definition DIRTYPE : string := "5".
Definition FIFOTYPE : string := "6".
Definition CONTTYPE : string := "7".
End tarfile.

(** The fields of [tarfile.TarInfo] that the service reads. *)
Record TarInfo : Type := mkTarInfo {
  ti_name : string;
  ti_type : string;
  ti_size : Z;
  ti_mtime : Z;
  ti_mode : Z;
  ti_uid : Z;
  ti_gid : Z;
}.

(** [FILE_TYPES] *)
Definition FILE_TYPES : gmap string string :=
  list_to_map
    [ (tarfile.REGTYPE, "f");
      (tarfile.DIRTYPE, "d");
      (tarfile.LNKTYPE, "l");
      (tarfile.SYMTYPE, "s");
      (tarfile.CHRTYPE, "c");
      (tarfile.BLKTYPE, "b") ].

(** The letters [FILE_TYPES] maps to. *)
Definition type_codes : list string := ["f"; "d"; "l"; "s"; "c"; "b"].

(** ** File inventory entries *)

(** [file_info[1:]]: the tuple without its path. *)
Record FileTail : Type := mkFileTail {
  ft_type : string;
  ft_deleted : bool;
  ft_size : Z;
  ft_mtime : Z;
  ft_mode : Z;
  ft_uid : Z;
  ft_gid : Z;
}.

(** The tuple [(filename, type, deleted, size, mtime, mode, uid, gid)]:
    [fi_path] is [file_info[0]] and [fi_tail] is [file_info[1:]]. *)
Record FileInfo : Type := mkFileInfo {
  fi_path : string;
  fi_tail : FileTail;
}.

Definition fi_type (fi : FileInfo) : string := ft_type (fi_tail fi).
Definition fi_deleted (fi : FileInfo) : bool := ft_deleted (fi_tail fi).

(** Lines 391-395 of [_serialize_tar_info]: ["."] becomes ["/"], then a
    leading ["./"] becomes ["/"]. *)
Definition dot_normalize (filename : string) : string :=
  let filename := if String.eqb filename "." then "/" else filename in
  if startswith "./" filename then "/" ++ slice_from 2 filename else filename.

(** Lines 397-399: a leading ["/.wh."] is replaced by ["/"] and the member is
    flagged as deleted. *)
Definition strip_whiteout (filename : string) (is_deleted : bool)
  : string * bool :=
  if startswith "/.wh." filename
  then ("/" ++ slice_from 5 filename, true)
  else (filename, is_deleted).

(** The tuple returned at lines 404-413 for a member, given the values of the
    locals [filename] and [is_deleted] and the letter found in [FILE_TYPES]. *)
Definition tar_entry (tar_info : TarInfo) (filename type : string)
    (is_deleted : bool) : FileInfo :=
  {| fi_path := filename;
     fi_tail := {| ft_type := type;
                   ft_deleted := is_deleted;
                   ft_size := ti_size tar_info;
                   ft_mtime := ti_mtime tar_info;
                   ft_mode := ti_mode tar_info;
                   ft_uid := ti_uid tar_info;
                   ft_gid := ti_gid tar_info |} |}.

(** [_serialize_tar_info]: [Ok None] is the [return None] of line 402. *)
Definition _serialize_tar_info (tar_info : TarInfo) : result (option FileInfo) :=
  let is_deleted := false in
  let filename := ti_name tar_info in
  let filename := dot_normalize filename in
  let '(filename, is_deleted) := strip_whiteout filename is_deleted in
  if startswith "/.wh." filename then Ok None
  else
    type ←r dict_getitem FILE_TYPES (ti_type tar_info);
    Ok (Some (tar_entry tar_info filename type is_deleted)).

(** The two comprehensions of [_read_tarfile], on the list of members that
    its call of [tar_fobj.getmembers()] returned: the inner one serialises
    every member, the outer one drops the [None]s.  The call of [getmembers]
    itself, which reads the archive and can raise a [tarfile] error, is part
    of [read_archive] below; [_get_image_files_from_fobj] puts the two
    together. *)
Definition _read_tarfile (members : list TarInfo) : result (list FileInfo) :=
  infos ←r list_comprehension _serialize_tar_info members;
  Ok (omap id infos).

(** ** JSON values, requests and replies *)

(** What [json.loads] returns.  An object is kept as its list of members in
    source order; a repeated key is resolved by [obj_get]. *)
Inductive json : Type :=
  | JNull
  | JBool (b : bool)
  | JNum (n : Z)
  | JStr (s : string)
  | JArr (items : list json)
  | JObj (members : list (string * json)).

(** Python truthiness of a parsed value: [bool(data)]. *)
Definition truthy (v : json) : bool :=
  match v with
  | JNull => false
  | JBool b => b
  | JNum n => negb (n =? 0)
  | JStr s => negb (String.eqb s "")
  | JArr items => negb (bool_decide (items = []))
  | JObj members => negb (bool_decide (members = []))
  end.

(** [isinstance(data, dict)] *)
Definition is_dict (v : json) : bool :=
  match v with JObj _ => true | _ => false end.

(** [data.get(k)] on a parsed value known to be an object: the last member
    with that key wins, as in a Python dict built by the parser. *)
Fixpoint assoc_last (k : string) (members : list (string * json)) : option json :=
  match members with
  | [] => None
  | (k', v) :: rest =>
      match assoc_last k rest with
      | Some w => Some w
      | None => if String.eqb k k' then Some v else None
      end
  end.

Definition obj_get (k : string) (v : json) : option json :=
  match v with
  | JObj members => assoc_last k members
  | _ => None
  end.

(** The collaborators outside [registry/images.py] that the handlers call
    and whose results they only pass on. *)
Class Externals : Type := {
  (** [json.loads(body)]; [None] when it raises [json.JSONDecodeError]. *)
  json_loads : string → option json;
  (** How the store renders a value that is not a string into a path. *)
  py_format : json → string;
  (** [layer_archive(fobj)] followed by [tar_fobj.getmembers()]: the members
      of a (possibly compressed) archive, or the [tarfile.TarError] raised on
      bytes that are no tar archive. *)
  read_archive : string → result (list TarInfo);
  (** [checksums.simple_checksum_handler(json_data)] fed with the body:
      the final [h.hexdigest()]. *)
  simple_checksum : string → string → string;
  (** [checksums.compute_tarsum(tmp, json_data)]; [None] when it raises
      [IOError] or [checksums.TarError]. *)
  compute_tarsum : string → string → option string;
}.

(** The dict [{'deleted': ..., 'changed': ..., 'created': ...}]. *)
Record DiffResult : Type := mkDiffResult {
  deleted : gmap string FileTail;
  changed : gmap string FileTail;
  created : gmap string FileTail;
}.

(** The object store, one map per artifact path family, keyed by image id
    ([images_list] by the repository's full name). *)
Record Store : Type := mkStore {
  st_json : gmap string string;
  st_layer : gmap string string;
  st_checksum : gmap string string;
  st_mark : gmap string string;
  st_ancestry : gmap string (list string);
  st_files : gmap string (list FileInfo);
  st_diff : gmap string DiffResult;
  st_images_list : gmap string (list string);
  st_private : gset (string * string);
}.

(** [flask.session] *)
Record Session : Type := mkSession {
  sess_checksum : option (list string);
  sess_repository : option string;
}.

Record World : Type := mkWorld {
  store : Store;
  session : Session;
}.

(** The parts of [flask.request] that the handlers read; [req_repository] is
    what [toolkit.get_repository()] returns for the request. *)
Record Request : Type := mkRequest {
  req_data : string;
  req_checksum : option string;
  req_if_modified_since : bool;
  req_repository : option (string * string);
}.

Inductive Payload : Type :=
  | PEmpty
  | PTrue
  | PError (message : string)
  | PRaw (data : string)
  | PFiles (files : list FileInfo)
  | PDiff (diff : DiffResult).

Record Response : Type := mkResponse {
  resp_code : Z;
  resp_payload : Payload;
  resp_cache_headers : bool;
}.

(** Modelled from the spec: [toolkit.api_error], whose module is not part of
    the sources.  It builds the error reply; the status is 400 (the
    BadRequest kind) unless the caller gives one. *)
Definition api_error (message : string) (code : option Z) : Response :=
  {| resp_code := default 400 code;
     resp_payload := PError message;
     resp_cache_headers := false |}.

(** Modelled from the spec: [toolkit.response], whose module is not part of
    the sources.  It builds the 200 reply around the data given. *)
Definition response (data : Payload) (cache_headers : bool) : Response :=
  {| resp_code := 200;
     resp_payload := data;
     resp_cache_headers := cache_headers |}.

(** ** The state-and-exception monad of a handler *)

Definition M (A : Type) : Type := World → result A * World.

Definition ret {A} (a : A) : M A := λ w, (Ok a, w).

Definition raise {A} (e : exn) : M A := λ w, (Raise e, w).

Definition bind {A B} (m : M A) (k : A → M B) : M B :=
  λ w, match m w with
       | (Ok a, w') => k a w'
       | (Raise e, w') => (Raise e, w')
       end.

Notation "x ←m e ; k" := (bind e (λ x, k))
  (at level 100, e at next level, k at level 200, right associativity).
Notation "e ;m k" := (bind e (λ _, k))
  (at level 100, k at level 200, right associativity).

(** [try: m except <classes in handles>: h] *)
Definition try_except {A} (m : M A) (handles : exn → bool) (h : M A) : M A :=
  λ w, match m w with
       | (Ok a, w') => (Ok a, w')
       | (Raise e, w') => if handles e then h w' else (Raise e, w')
       end.

Definition lift {A} (r : result A) : M A := λ w, (r, w).

Definition get_store : M Store := λ w, (Ok (store w), w).

Definition modify_store (f : Store → Store) : M unit :=
  λ w, (Ok tt, {| store := f (store w); session := session w |}).

Definition get_session : M Session := λ w, (Ok (session w), w).

Definition modify_session (f : Session → Session) : M unit :=
  λ w, (Ok tt, {| store := store w; session := f (session w) |}).

(** Reading a local variable that no executed statement has assigned. *)
Definition read_local {A} (name : string) (binding : option A) : M A :=
  match binding with
  | Some v => ret v
  | None => raise (UnboundLocalError name)
  end.

(** [for x in xs: body], threading the loop-carried variables [acc]. *)
Fixpoint for_each {A S} (xs : list A) (body : A → S → M S) (acc : S) : M S :=
  match xs with
  | [] => ret acc
  | x :: xs' => acc' ←m body x acc; for_each xs' body acc'
  end.

Definition is_IOError (e : exn) : bool :=
  match e with IOError => true | _ => false end.

Definition is_TarError (e : exn) : bool :=
  match e with TarError => true | _ => false end.

(** [except Exception] *)
Definition is_Exception (e : exn) : bool := true.

(** ** The object store interface *)

(** Modelled from the spec: the [storage] module is not part of the sources.
    [exists(path)] is true iff the path has a stored value; [get_content]
    fails (with [IOError], as the handlers expect) on a missing path;
    [put_content] replaces; [remove] is an idempotent delete. *)
Definition store_exists {V} (family : Store → gmap string V) (image_id : string)
  : M bool :=
  s ←m get_store; ret (bool_decide (is_Some (family s !! image_id))).

Definition store_get_content {V} (family : Store → gmap string V)
    (image_id : string) : M V :=
  s ←m get_store;
  match family s !! image_id with
  | Some v => ret v
  | None => raise IOError
  end.

Definition with_json (f : gmap string string → gmap string string) (s : Store)
  : Store :=
  mkStore (f (st_json s)) (st_layer s) (st_checksum s) (st_mark s)
          (st_ancestry s) (st_files s) (st_diff s) (st_images_list s)
          (st_private s).

Definition with_layer (f : gmap string string → gmap string string) (s : Store)
  : Store :=
  mkStore (st_json s) (f (st_layer s)) (st_checksum s) (st_mark s)
          (st_ancestry s) (st_files s) (st_diff s) (st_images_list s)
          (st_private s).

Definition with_checksum (f : gmap string string → gmap string string)
    (s : Store) : Store :=
  mkStore (st_json s) (st_layer s) (f (st_checksum s)) (st_mark s)
          (st_ancestry s) (st_files s) (st_diff s) (st_images_list s)
          (st_private s).

Definition with_mark (f : gmap string string → gmap string string) (s : Store)
  : Store :=
  mkStore (st_json s) (st_layer s) (st_checksum s) (f (st_mark s))
          (st_ancestry s) (st_files s) (st_diff s) (st_images_list s)
          (st_private s).

Definition with_ancestry
    (f : gmap string (list string) → gmap string (list string)) (s : Store)
  : Store :=
  mkStore (st_json s) (st_layer s) (st_checksum s) (st_mark s)
          (f (st_ancestry s)) (st_files s) (st_diff s) (st_images_list s)
          (st_private s).

Definition with_files
    (f : gmap string (list FileInfo) → gmap string (list FileInfo)) (s : Store)
  : Store :=
  mkStore (st_json s) (st_layer s) (st_checksum s) (st_mark s)
          (st_ancestry s) (f (st_files s)) (st_diff s) (st_images_list s)
          (st_private s).

Definition with_diff
    (f : gmap string DiffResult → gmap string DiffResult) (s : Store) : Store :=
  mkStore (st_json s) (st_layer s) (st_checksum s) (st_mark s)
          (st_ancestry s) (st_files s) (f (st_diff s)) (st_images_list s)
          (st_private s).

(** [store.is_private], applied to the repository's namespace and name. *)
Definition is_private (repository : string * string) : M bool :=
  s ←m get_store; ret (bool_decide (repository ∈ st_private s)).

(** ** Upload: [PUT json] *)

(** [s.split(sep)] for a one-character separator. *)
Fixpoint split_on (sep : ascii) (s : string) : list string :=
  match s with
  | EmptyString => [EmptyString]
  | String c s' =>
      if Ascii.eqb c sep then EmptyString :: split_on sep s'
      else match split_on sep s' with
           | [] => [String c EmptyString]
           | part :: parts => String c part :: parts
           end
  end.

(** [store_checksum]: [Some message] is the returned error string, [None] the
    implicit [return None] after the checksum is stored. *)
Definition store_checksum (image_id checksum : string) : M (option string) :=
  let checksum_parts := split_on ":" checksum in
  if negb (length checksum_parts =? 2)%nat
  then ret (Some "Invalid checksum format")
  else
    modify_store (with_checksum <[image_id := checksum]>);m
    ret None.

(** [check_images_list].  [store.images_list_path] takes a namespace and a
    repository: the call with [*full_repos_name.split('/')] raises
    [TypeError] unless the name splits in two, and the [try] catches
    [IOError] only.  The images list of a repository is kept under its full
    name. *)
Definition check_images_list (image_id : string) : M bool :=
  sess ←m get_session;
  match sess_repository sess with
  | None => ret true
  | Some full_repos_name =>
      if String.eqb full_repos_name "" then ret true
      else
        try_except
          ((if negb (length (split_on "/" full_repos_name) =? 2)%nat
            then raise TypeError else ret tt);m
           images_list ←m store_get_content st_images_list full_repos_name;
           ret (bool_decide (image_id ∈ images_list)))
          is_IOError
          (ret false)
  end.

(** [image_id != v] for the URL's [image_id] and a parsed value [v]: only the
    string with the same characters is equal to it. *)
Definition differs_from (image_id : string) (v : json) : bool :=
  match v with
  | JStr s => negb (String.eqb image_id s)
  | _ => true
  end.

(** The image id a parsed value names when it is used to build a path. *)
Definition image_key `{Externals} (v : json) : string :=
  match v with
  | JStr s => s
  | _ => py_format v
  end.

(** [generate_ancestry] *)
Definition generate_ancestry `{Externals} (image_id : string)
    (parent_id : option json) : M unit :=
  match parent_id with
  | Some p =>
      if truthy p then
        data ←m store_get_content st_ancestry (image_key p);
        modify_store (with_ancestry <[image_id := image_id :: data]>)
      else modify_store (with_ancestry <[image_id := [image_id]]>)
  | None => modify_store (with_ancestry <[image_id := [image_id]]>)
  end.

(** [put_image_json].  [json.loads] sits in a [try] whose handler is [pass]:
    when it raises, the local [data] stays unassigned. *)
Definition put_image_json `{Externals} (image_id : string) (req : Request)
  : M Response :=
  let data := json_loads (req_data req) in
  data ←m read_local "data" data;
  if negb (truthy data) || negb (is_dict data)
  then ret (api_error "Invalid JSON" None)
  else
    match obj_get "id" data with
    | None => ret (api_error "Missing key `id' in JSON" None)
    | Some data_id =>
        let checksum := req_checksum req in
        err ←m match checksum with
               | Some c =>
                   if negb (String.eqb c "") then store_checksum image_id c
                   else modify_store (with_checksum (delete image_id));m
                        ret (None : option string)
               | None =>
                   modify_store (with_checksum (delete image_id));m
                   ret (None : option string)
               end;
        match err with
        | Some message => ret (api_error message None)
        | None =>
            if differs_from image_id data_id
            then ret (api_error "JSON data contains invalid id" None)
            else
              listed ←m check_images_list image_id;
              if negb listed
              then ret (api_error
                          "This image does not belong to the repository" None)
              else
                let parent_id := obj_get "parent" data in
                parent_missing ←m
                  match parent_id with
                  | Some p =>
                      if truthy p then
                        e ←m store_exists st_json (image_key p); ret (negb e)
                      else ret false
                  | None => ret false
                  end;
                if (parent_missing : bool)
                then ret (api_error
                            "Image depends on a non existing parent" None)
                else
                  has_json ←m store_exists st_json image_id;
                  has_mark ←m store_exists st_mark image_id;
                  if has_json && negb has_mark
                  then ret (api_error "Image already exists" (Some 409))
                  else
                    modify_store (with_mark <[image_id := "true"]>);m
                    modify_store (with_json <[image_id := req_data req]>);m
                    generate_ancestry image_id parent_id;m
                    ret (response PTrue false)
        end
    end.

(** ** The files inventory and its cache *)

(** [_get_image_files_cache]: [None] is the implicit [return None]. *)
Definition _get_image_files_cache (image_id : string)
  : M (option (list FileInfo)) :=
  s ←m get_store; ret (st_files s !! image_id).

(** [_set_image_files_cache] *)
Definition _set_image_files_cache (image_id : string) (files : list FileInfo)
  : M unit :=
  modify_store (with_files <[image_id := files]>).

(** [_get_image_files_from_fobj] *)
Definition _get_image_files_from_fobj `{Externals} (layer_file : string)
  : result (list FileInfo) :=
  members ←r read_archive layer_file;
  _read_tarfile members.

(** [_get_image_files]: the cached inventory, or the one read from the stored
    layer, which is then cached. *)
Definition _get_image_files `{Externals} (image_id : string)
  : M (list FileInfo) :=
  files_json ←m _get_image_files_cache image_id;
  match files_json with
  | Some files => ret files
  | None =>
      tmp_fobj ←m store_get_content st_layer image_id;
      files ←m lift (_get_image_files_from_fobj tmp_fobj);
      _set_image_files_cache image_id files;m
      ret files
  end.

(** ** Upload: [PUT layer] *)

(** Lines 144 and 160-166: the list [csums] once both digests were tried;
    [tmp] holds the streamed body. *)
Definition computed_csums `{Externals} (json_data tmp : string) : list string :=
  let csums := ["sha256:" ++ simple_checksum json_data tmp] in
  match compute_tarsum tmp json_data with
  | Some tarsum => (csums ++ [tarsum])%list
  | None => csums
  end.

(** [put_image_layer]; the request body is the streamed layer. *)
Definition put_image_layer `{Externals} (image_id : string) (req : Request)
  : M Response :=
  found ←m try_except
             (v ←m store_get_content st_json image_id; ret (Some v))
             is_IOError
             (ret None);
  match found with
  | None => ret (api_error "Image not found" (Some 404))
  | Some json_data =>
      has_layer ←m store_exists st_layer image_id;
      has_mark ←m store_exists st_mark image_id;
      if has_layer && negb has_mark
      then ret (api_error "Image already exists" (Some 409))
      else
        let tmp := req_data req in
        modify_store (with_layer <[image_id := req_data req]>);m
        try_except
          (files ←m lift (_get_image_files_from_fobj tmp);
           _set_image_files_cache image_id files)
          is_Exception
          (ret tt);m
        let csums := computed_csums json_data tmp in
        stored ←m try_except
                    (c ←m store_get_content st_checksum image_id; ret (Some c))
                    is_IOError
                    (ret None);
        match stored with
        | None =>
            modify_session
              (λ sess, mkSession (Some csums) (sess_repository sess));m
            ret (response PTrue false)
        | Some checksum =>
            if negb (bool_decide (checksum ∈ csums))
            then ret (api_error "Checksum mismatch, ignoring the layer" None)
            else
              modify_store (with_mark (delete image_id));m
              ret (response PTrue false)
        end
  end.

(** ** Reading the inventory: [GET files] *)

(** [try: m except E1: h1 except E2: h2 ...]: [handlers e] is the handler of
    the first clause matching [e], if any. *)
Definition try_handlers {A} (m : M A) (handlers : exn → option (M A)) : M A :=
  λ w, match m w with
       | (Ok a, w') => (Ok a, w')
       | (Raise e, w') =>
           match handlers e with
           | Some h => h w'
           | None => (Raise e, w')
           end
       end.

(** The decorator [require_completion]. *)
Definition require_completion (f : string → Request → M Response)
    (image_id : string) (req : Request) : M Response :=
  uploading ←m store_exists st_mark image_id;
  if (uploading : bool)
  then ret (api_error "Image is being uploaded, retry later" None)
  else f image_id req.

(** The decorator [set_cache_headers]; the handler receives [headers]. *)
Definition set_cache_headers (f : string → Request → bool → M Response)
    (image_id : string) (req : Request) : M Response :=
  if req_if_modified_since req
  then ret {| resp_code := 304; resp_payload := PEmpty;
              resp_cache_headers := true |}
  else f image_id req true.

(** The body of [get_image_files]. *)
Definition get_image_files_body `{Externals} (image_id : string)
    (req : Request) (headers : bool) : M Response :=
  try_handlers
    (private ←m match req_repository req with
                | Some repository => is_private repository
                | None => ret false
                end;
     if (private : bool)
     then ret (api_error "Image not found" (Some 404))
     else
       data ←m _get_image_files image_id;
       ret (response (PFiles data) headers))
    (λ e, match e with
          | IOError => Some (ret (api_error "Image not found" (Some 404)))
          | TarError =>
              Some (ret (api_error "Layer format not supported" (Some 400)))
          | _ => None
          end).

(** [get_image_files] as routed, for a request that [toolkit.requires_auth]
    lets through. *)
Definition get_image_files `{Externals} : string → Request → M Response :=
  require_completion (set_cache_headers get_image_files_body).

(** ** The diff engine *)

(** [_get_file_info_map]: a later tuple with the same filename replaces an
    earlier one. *)
Definition _get_file_info_map (file_infos : list FileInfo)
  : gmap string FileTail :=
  foldl (λ m file_info, <[fi_path file_info := fi_tail file_info]> m)
        ∅ file_infos.

(** [_get_image_diff_cache] *)
Definition _get_image_diff_cache (image_id : string) : M (option DiffResult) :=
  s ←m get_store; ret (st_diff s !! image_id).

(** [_set_image_diff_cache] *)
Definition _set_image_diff_cache (image_id : string) (diff_json : DiffResult)
  : M unit :=
  modify_store (with_diff <[image_id := diff_json]>).

(** The four dicts that the loops of [_get_image_diff] update. *)
Record DiffState : Type := mkDiffState {
  ds_info_map : gmap string FileTail;
  ds_deleted : gmap string FileTail;
  ds_changed : gmap string FileTail;
  ds_created : gmap string FileTail;
}.

(** The body of the inner loop (lines 557-571) for one item of
    [info_map.items()].  [ancestor_map.get(filename)] is [None] or a tuple
    tail, which has seven fields and is therefore true in a condition. *)
Definition classify (ancestor_map : gmap string FileTail) (st : DiffState)
    (item : string * FileTail) : DiffState :=
  let '(filename, info) := item in
  let ancestor_info := ancestor_map !! filename in
  if ft_deleted info then
    {| ds_info_map := delete filename (ds_info_map st);
       ds_deleted := <[filename := info]> (ds_deleted st);
       ds_changed := ds_changed st;
       ds_created := ds_created st |}
  else
    match ancestor_info with
    | Some ancestor_info =>
        if ft_deleted ancestor_info then
          {| ds_info_map := delete filename (ds_info_map st);
             ds_deleted := ds_deleted st;
             ds_changed := ds_changed st;
             ds_created := <[filename := info]> (ds_created st) |}
        else
          {| ds_info_map := delete filename (ds_info_map st);
             ds_deleted := ds_deleted st;
             ds_changed := <[filename := info]> (ds_changed st);
             ds_created := ds_created st |}
    | None => st
    end.

(** The inner loop: [info_map.items()] is a list built before the first
    iteration, so the deletions do not disturb the walk. *)
Definition walk_items (ancestor_map : gmap string FileTail) (st : DiffState)
  : DiffState :=
  foldl (classify ancestor_map) st (map_to_list (ds_info_map st)).

(** The body of the outer loop (lines 551-571) for one ancestor. *)
Definition walk_ancestor `{Externals} (id : string) (st : DiffState)
  : M DiffState :=
  ancestor_files ←m _get_image_files id;
  let ancestor_map := _get_file_info_map ancestor_files in
  ret (walk_items ancestor_map st).

(** [_get_image_diff] *)
Definition _get_image_diff `{Externals} (image_id : string) : M DiffResult :=
  diff_json ←m _get_image_diff_cache image_id;
  match diff_json with
  | Some diff => ret diff
  | None =>
      data ←m store_get_content st_ancestry image_id;
      let ancestry := drop 1 data in
      files ←m _get_image_files image_id;
      let info_map := _get_file_info_map files in
      st ←m for_each ancestry walk_ancestor
              {| ds_info_map := info_map; ds_deleted := ∅;
                 ds_changed := ∅; ds_created := ∅ |};
      let created := ds_info_map st ∪ ds_created st in
      let diff_json := {| deleted := ds_deleted st;
                          changed := ds_changed st;
                          created := created |} in
      _set_image_diff_cache image_id diff_json;m
      ret diff_json
  end.

(** ** The diff computation in the words of the specification *)

(** Where an entry [(path, info)] of the top map goes when one ancestor with
    inventory map [anc] is processed. *)
Definition spec_to_deleted (item : string * FileTail) : Prop :=
  ft_deleted item.2 = true.

Definition spec_to_created (anc : gmap string FileTail)
    (item : string * FileTail) : Prop :=
  ft_deleted item.2 = false ∧ ft_deleted <$> anc !! item.1 = Some true.

Definition spec_to_changed (anc : gmap string FileTail)
    (item : string * FileTail) : Prop :=
  ft_deleted item.2 = false ∧ ft_deleted <$> anc !! item.1 = Some false.

Definition spec_stays (anc : gmap string FileTail)
    (item : string * FileTail) : Prop :=
  ft_deleted item.2 = false ∧ ft_deleted <$> anc !! item.1 = None.

#[global] Instance spec_to_deleted_dec item : Decision (spec_to_deleted item).
Proof. unfold spec_to_deleted. apply _. Defined.

#[global] Instance spec_to_created_dec anc item :
  Decision (spec_to_created anc item).
Proof. unfold spec_to_created. apply _. Defined.

#[global] Instance spec_to_changed_dec anc item :
  Decision (spec_to_changed anc item).
Proof. unfold spec_to_changed. apply _. Defined.

#[global] Instance spec_stays_dec anc item : Decision (spec_stays anc item).
Proof. unfold spec_stays. apply _. Defined.

(** One ancestor processed: the entries that move leave the top map and
    enter their class. *)
Definition spec_diff_step (st : DiffState) (anc : gmap string FileTail)
  : DiffState :=
  let top := ds_info_map st in
  {| ds_info_map := filter (spec_stays anc) top;
     ds_deleted := filter spec_to_deleted top ∪ ds_deleted st;
     ds_changed := filter (spec_to_changed anc) top ∪ ds_changed st;
     ds_created := filter (spec_to_created anc) top ∪ ds_created st |}.

(** All ancestors processed in order, then every remaining entry of the top
    map moves to [created]. *)
Definition spec_diff (top : gmap string FileTail)
    (ancestors : list (gmap string FileTail)) : DiffResult :=
  let st := foldl spec_diff_step
                  {| ds_info_map := top; ds_deleted := ∅;
                     ds_changed := ∅; ds_created := ∅ |}
                  ancestors in
  {| deleted := ds_deleted st;
     changed := ds_changed st;
     created := ds_info_map st ∪ ds_created st |}.

(** The inventory that [_get_image_files] yields for an image in a given
    store: the cached one, else the one read from the stored layer. *)
Definition inventory `{Externals} (s : Store) (image_id : string)
  : result (list FileInfo) :=
  match st_files s !! image_id with
  | Some files => Ok files
  | None =>
      match st_layer s !! image_id with
      | Some layer => _get_image_files_from_fobj layer
      | None => Raise IOError
      end
  end.

(** ** Worlds, requests and collaborators of the examples *)

(** The double-quote character. *)
Definition dq : string := String "034"%char EmptyString.

(** The manifest of image [a], as sent by a client. *)
Definition manifest_a : string :=
  "{" ++ dq ++ "id" ++ dq ++ ": " ++ dq ++ "a" ++ dq ++ "}".

(** Collaborators for the examples: a parser that knows [manifest_a] and
    rejects everything else, two archives known by their bytes, and fixed
    digests. *)
Definition example_externals : Externals := {|
  json_loads body :=
    if String.eqb body manifest_a then Some (JObj [("id", JStr "a")])
    else None;
  py_format _ := "";
  read_archive bytes :=
    if String.eqb bytes "pipe.tar"
    then Ok [mkTarInfo "./pipe" tarfile.FIFOTYPE 0 0 420 0 0]
    else if String.eqb bytes "layer.tar"
    then Ok [mkTarInfo "./foo" tarfile.REGTYPE 3 0 420 0 0;
             mkTarInfo "./.wh.bar" tarfile.REGTYPE 0 0 420 0 0]
    else Raise TarError;
  simple_checksum _ _ := "aa";
  compute_tarsum _ _ := Some "tarsum+sha256:bb";
|}.

Definition empty_store : Store :=
  mkStore ∅ ∅ ∅ ∅ ∅ ∅ ∅ ∅ ∅.

Definition no_session : Session := mkSession None None.

(** A regular-file member with the given name. *)
Definition regular_member (name : string) : TarInfo :=
  mkTarInfo name tarfile.REGTYPE 0 0 420 0 0.

(** A FIFO member. *)
Definition pipe_member : TarInfo :=
  mkTarInfo "./pipe" tarfile.FIFOTYPE 0 0 420 0 0.

(** Image [a] after a finished upload: json, layer and checksum are stored
    and the mark is gone. *)
Definition finalized_a : Store :=
  with_json <["a" := manifest_a]>
    (with_layer <["a" := "layer.tar"]>
       (with_checksum <["a" := "sha256:aa"]>
          (with_ancestry <["a" := ["a"]]> empty_store))).

(** Image [a] between [PUT json] (sent with its checksum) and [PUT layer]. *)
Definition uploading_a : Store :=
  with_json <["a" := manifest_a]>
    (with_mark <["a" := "true"]>
       (with_checksum <["a" := "sha256:aa"]>
          (with_ancestry <["a" := ["a"]]> empty_store))).

(** Image [p], whose layer holds a FIFO and whose inventory is not cached. *)
Definition pipe_store : Store :=
  with_json <["p" := "{}"]> (with_layer <["p" := "pipe.tar"]> empty_store).

(** Image [a] with its layer, its ancestry and no cached inventory. *)
Definition single_layer : Store :=
  with_layer <["a" := "layer.tar"]>
    (with_ancestry <["a" := ["a"]]> empty_store).

Definition file_entry (path : string) (is_deleted : bool) : FileInfo :=
  mkFileInfo path (mkFileTail "f" is_deleted 0 0 420 0 0).

(** Three layers: [A] has [/x] and [/y]; [B], on top of [A], removes [/x] and
    adds [/z]; [C], on top of [B], has [/y] and [/x]. *)
Definition files_A : list FileInfo := [file_entry "/x" false; file_entry "/y" false].
Definition files_B : list FileInfo := [file_entry "/x" true; file_entry "/z" false].
Definition files_C : list FileInfo := [file_entry "/y" false; file_entry "/x" false].

Definition three_layers : Store :=
  with_files (λ _, {["A" := files_A; "B" := files_B; "C" := files_C]})
    (with_ancestry <["C" := ["C"; "B"; "A"]]> empty_store).

(** The diff of [C] in [three_layers]. *)
Definition diff_of_C : DiffResult :=
  {| deleted := ∅;
     changed := {["/y" := fi_tail (file_entry "/y" false)]};
     created := {["/x" := fi_tail (file_entry "/x" false)]} |}.

(** ** Auxiliary notions of the proofs *)

(** The world once an inventory has been written to the files cache. *)
Definition remember_files (image_id : string) (files : list FileInfo)
    (w : World) : World :=
  {| store := with_files <[image_id := files]> (store w);
     session := session w |}.

(** The world of [put_image_layer] once the body is stored and the inventory
    was cached, or could not be read. *)
Definition after_stream `{Externals} (image_id : string) (req : Request)
    (w : World) : World :=
  let w1 := {| store := with_layer <[image_id := req_data req]> (store w);
               session := session w |} in
  match _get_image_files_from_fobj (req_data req) with
  | Ok files => remember_files image_id files w1
  | Raise _ => w1
  end.

(** The checksum family after the checksum step of [put_image_json] (lines
    319-327) for a header of the right form. *)
Definition checksum_after_header (image_id : string) (header : option string)
    (checksums : gmap string string) : gmap string string :=
  match header with
  | Some c => if String.eqb c "" then delete image_id checksums
              else <[image_id := c]> checksums
  | None => delete image_id checksums
  end.

(** [w'] has the diff cache of [w] and yields the same inventories. *)
Definition keeps `{Externals} (w w' : World) : Prop :=
  st_diff (store w') = st_diff (store w) ∧
  ∀ b, inventory (store w') b = inventory (store w) b.

(** What [_get_image_diff] returns and leaves behind once it computed [d]. *)
Definition diff_run_result (image_id : string) (d : DiffResult) (w' : World)
  : result DiffResult * World :=
  (Ok d, {| store := with_diff <[image_id := d]> (store w');
            session := session w' |}).

(** Every path of [D], and no other, is a key of exactly one of the four
    dicts. *)
Definition partitions (D : gset string) (st : DiffState) : Prop :=
  ∀ k,
    match ds_info_map st !! k, ds_deleted st !! k,
          ds_changed st !! k, ds_created st !! k with
    | Some _, None, None, None
    | None, Some _, None, None
    | None, None, Some _, None
    | None, None, None, Some _ => k ∈ D
    | None, None, None, None => k ∉ D
    | _, _, _, _ => False
    end.

(** ** Upload: [PUT checksum] *)

(** [s.count(c)] for a one-character [c]. *)
Fixpoint count_char (c : ascii) (s : string) : nat :=
  match s with
  | EmptyString => O
  | String c' s' => (if Ascii.eqb c' c then 1 else 0) + count_char c s'
  end.

(** [put_image_checksum].  [flask.session.get('checksum')] is true in a
    condition when the key is set to a list that is not empty. *)
Definition put_image_checksum (image_id : string) (req : Request)
  : M Response :=
  match req_checksum req with
  | None => ret (api_error "Missing Image's checksum" None)
  | Some checksum =>
      if String.eqb checksum ""
      then ret (api_error "Missing Image's checksum" None)
      else
        sess ←m get_session;
        if bool_decide (default [] (sess_checksum sess) = [])
        then ret (api_error "Checksum not found in Cookie" None)
        else
          has_json ←m store_exists st_json image_id;
          if negb has_json
          then ret (api_error "Image not found" (Some 404))
          else
            has_mark ←m store_exists st_mark image_id;
            if negb has_mark
            then ret (api_error "Cannot set this image checksum" (Some 409))
            else
              err ←m store_checksum image_id checksum;
              match err with
              | Some message => ret (api_error message None)
              | None =>
                  sess ←m get_session;
                  if negb (bool_decide
                             (checksum ∈ default [] (sess_checksum sess)))
                  then ret (api_error "Checksum mismatch" None)
                  else
                    modify_store (with_mark (delete image_id));m
                    ret (response PTrue false)
              end
  end.

(** ** The four rules of the docstring of [_get_image_diff] *)

Inductive FileAction : Type := DELETED | CHANGED | CREATED.

(** What happened to a file of the top layer, found by walking the ancestors
    from the newest: the rules of the docstring, applied as the loop applies
    them (the deleted flag of the top entry is looked at only when there is
    an ancestor to walk). *)
Fixpoint file_action (path : string) (info : FileTail)
    (ancestors : list (gmap string FileTail)) : FileAction :=
  match ancestors with
  | [] => CREATED
  | anc :: older =>
      if ft_deleted info then DELETED
      else match anc !! path with
           | Some ancestor_info =>
               if ft_deleted ancestor_info then CREATED else CHANGED
           | None => file_action path info older
           end
  end.

(** The world after a successful [put_image_json] for an image without
    parent. *)
Definition after_put_json (image_id : string) (req : Request) (w : World)
  : World :=
  {| store :=
       with_ancestry <[image_id := [image_id]]>
         (with_json <[image_id := req_data req]>
            (with_mark <[image_id := "true"]>
               (with_checksum
                  (checksum_after_header image_id (req_checksum req))
                  (store w))));
     session := session w |}.

(** The ancestry of the parent that a manifest names, read as
    [generate_ancestry] reads it. *)
Definition parent_ancestry `{Externals} (s : Store) (data : json)
  : list string :=
  match obj_get "parent" data with
  | Some p => if truthy p then default [] (st_ancestry s !! image_key p) else []
  | None => []
  end.

Definition action_eqb (a b : FileAction) : bool :=
  match a, b with
  | DELETED, DELETED | CHANGED, CHANGED | CREATED, CREATED => true
  | _, _ => false
  end.

(** The entry that [_serialize_tar_info] returns for a member whose type is a
    key of [FILE_TYPES], if it returns one. *)
Definition entry_of (m : TarInfo) : option FileInfo :=
  if startswith "/.wh." (strip_whiteout (dot_normalize (ti_name m)) false).1
  then None
  else Some (tar_entry m (strip_whiteout (dot_normalize (ti_name m)) false).1
               (default "" (FILE_TYPES !! ti_type m))
               (strip_whiteout (dot_normalize (ti_name m)) false).2).

(** Image [a] after [PUT json] without checksum and [PUT layer]: the mark is
    still there and the session carries the computed candidates. *)
Definition awaiting_checksum_a : World :=
  mkWorld
    (with_json <["a" := manifest_a]>
       (with_mark <["a" := "true"]>
          (with_layer <["a" := "layer.tar"]>
             (with_ancestry <["a" := ["a"]]> empty_store))))
    (mkSession (Some ["sha256:aa"; "tarsum+sha256:bb"]) None).

(** Requests that carry only a body, or only a checksum header. *)
Definition body_request (body : string) : Request :=
  mkRequest body None false None.

Definition checksum_request (checksum : string) : Request :=
  mkRequest "" (Some checksum) false None.

(** * Properties *)

(** ** Strings *)

Lemma startswith_app p r : startswith p (p ++ r) = true.
Proof.
  unfold startswith. induction p as [|a p IH]; simpl.
  - by destruct r.
  - destruct (ascii_dec a a); [done|congruence].
Qed.

Lemma startswith_cons a p s :
  startswith (String a p) (String a s) = startswith p s.
Proof. unfold startswith. simpl. by destruct (ascii_dec a a). Qed.

Lemma startswith_slash p r :
  startswith (String "/" p) ("/" ++ r) = startswith p r.
Proof. exact (startswith_cons "/" p r). Qed.

Lemma slice_from_app p r : slice_from (String.length p) (p ++ r) = r.
Proof. induction p; simpl; auto. Qed.

Lemma startswith_inv p s :
  startswith p s = true → s = p ++ slice_from (String.length p) s.
Proof.
  unfold startswith. revert s. induction p as [|a p IH]; intros s Hs.
  - done.
  - destruct s as [|b s]; simpl in Hs; [done|].
    destruct (ascii_dec a b) as [->|]; [|done].
    change (String b s = String b (p ++ slice_from (String.length p) s)).
    f_equal. by apply IH.
Qed.

(** ** The layer inventory *)

Lemma FILE_TYPES_codes t c : FILE_TYPES !! t = Some c → c ∈ type_codes.
Proof.
  intros Hl. apply elem_of_list_to_map_2 in Hl.
  unfold type_codes.
  repeat (apply elem_of_cons in Hl as [Hl|Hl];
          [inversion Hl; subst; set_solver|]).
  by apply elem_of_nil in Hl.
Qed.

Lemma dot_normalize_dot_slash r : dot_normalize ("./" ++ r) = "/" ++ r.
Proof.
  unfold dot_normalize.
  change (String.eqb ("./" ++ r) ".") with false. cbv beta iota zeta.
  by rewrite (startswith_app "./"), (slice_from_app "./").
Qed.

Lemma dot_normalize_rooted name :
  name = "." ∨ startswith "./" name = true ∨ startswith "/" name = true →
  startswith "/" (dot_normalize name) = true.
Proof.
  intros [->|[Hn|Hn]]; [done| |].
  - unfold dot_normalize.
    destruct (String.eqb_spec name ".") as [->|_]; [done|].
    rewrite Hn. apply (startswith_app "/").
  - unfold dot_normalize.
    destruct (String.eqb_spec name ".") as [->|_]; [done|].
    destruct (startswith "./" name); [apply (startswith_app "/")|exact Hn].
Qed.

Lemma strip_whiteout_prefix r d :
  strip_whiteout ("/.wh." ++ r) d = ("/" ++ r, true).
Proof.
  unfold strip_whiteout.
  by rewrite (startswith_app "/.wh."), (slice_from_app "/.wh.").
Qed.

Lemma strip_whiteout_other name d :
  startswith "/.wh." name = false → strip_whiteout name d = (name, d).
Proof. unfold strip_whiteout. by intros ->. Qed.

Lemma strip_whiteout_rooted name d :
  startswith "/" name = true → startswith "/" (strip_whiteout name d).1 = true.
Proof.
  intros Hroot. unfold strip_whiteout.
  destruct (startswith "/.wh." name); simpl;
    [apply (startswith_app "/")|exact Hroot].
Qed.

(** [_serialize_tar_info] in terms of the name its two stages produce. *)
Lemma serialize_stages m :
  _serialize_tar_info m =
    let staged := strip_whiteout (dot_normalize (ti_name m)) false in
    if startswith "/.wh." staged.1 then Ok None
    else type ←r dict_getitem FILE_TYPES (ti_type m);
         Ok (Some (tar_entry m staged.1 type staged.2)).
Proof.
  unfold _serialize_tar_info. simpl.
  by destruct (strip_whiteout _ _).
Qed.

Lemma serialize_entry m c path del :
  FILE_TYPES !! ti_type m = Some c →
  strip_whiteout (dot_normalize (ti_name m)) false = (path, del) →
  startswith "/.wh." path = false →
  _serialize_tar_info m = Ok (Some (tar_entry m path c del)).
Proof.
  intros Hc Hs Hp. rewrite serialize_stages. simpl. rewrite Hs. simpl.
  rewrite Hp. unfold dict_getitem. by rewrite Hc.
Qed.

Lemma serialize_Some_inv m fi :
  _serialize_tar_info m = Ok (Some fi) →
  fi_path fi = (strip_whiteout (dot_normalize (ti_name m)) false).1 ∧
  startswith "/.wh." (fi_path fi) = false ∧
  FILE_TYPES !! ti_type m = Some (fi_type fi).
Proof.
  unfold _serialize_tar_info.
  destruct (strip_whiteout _ _) as [filename is_deleted] eqn:Hs.
  destruct (startswith "/.wh." filename) eqn:Hw; [done|].
  unfold dict_getitem. destruct (FILE_TYPES !! ti_type m) eqn:Ht; [|done].
  simpl. intros [= <-]. by simpl.
Qed.

Lemma serialize_unknown_type m :
  FILE_TYPES !! ti_type m = None →
  startswith "/.wh." (strip_whiteout (dot_normalize (ti_name m)) false).1
    = false →
  _serialize_tar_info m = Raise (KeyError (ti_type m)).
Proof.
  intros Ht Hw. rewrite serialize_stages. simpl. rewrite Hw.
  unfold dict_getitem. by rewrite Ht.
Qed.

Lemma list_comprehension_elem {A B} (f : A → result B) xs ys y :
  list_comprehension f xs = Ok ys → y ∈ ys → ∃ x, x ∈ xs ∧ f x = Ok y.
Proof.
  revert ys. induction xs as [|x xs IH]; intros ys; simpl.
  - intros [= <-] Hy. by apply elem_of_nil in Hy.
  - destruct (f x) as [y0|] eqn:Hx; simpl; [|done].
    destruct (list_comprehension f xs) as [ys0|] eqn:Hxs; simpl; [|done].
    intros [= <-] [->|Hy]%elem_of_cons.
    + exists x. split; [left|done].
    + destruct (IH ys0 eq_refl Hy) as (x' & ? & ?).
      exists x'. split; [by right|done].
Qed.

Lemma list_comprehension_raise {A B} (f : A → result B) pre x post e :
  Forall (λ y, ∃ b, f y = Ok b) pre → f x = Raise e →
  list_comprehension f (pre ++ x :: post) = Raise e.
Proof.
  intros Hpre Hx. induction Hpre as [|y pre [b Hb] _ IH]; simpl.
  - by rewrite Hx.
  - rewrite Hb. simpl. by rewrite IH.
Qed.

Lemma read_tarfile_elem members files fi :
  _read_tarfile members = Ok files → fi ∈ files →
  ∃ m, m ∈ members ∧ _serialize_tar_info m = Ok (Some fi).
Proof.
  unfold _read_tarfile.
  destruct (list_comprehension _ members) as [infos|] eqn:Hc; simpl; [|done].
  intros [= <-] Hfi. apply list_elem_of_omap in Hfi as (o & Ho & Hid).
  simpl in Hid. subst o.
  eapply list_comprehension_elem; eauto.
Qed.

Lemma read_tarfile_unknown_type pre m post :
  Forall (λ y, ∃ b, _serialize_tar_info y = Ok b) pre →
  FILE_TYPES !! ti_type m = None →
  startswith "/.wh." (strip_whiteout (dot_normalize (ti_name m)) false).1
    = false →
  _read_tarfile (pre ++ m :: post) = Raise (KeyError (ti_type m)).
Proof.
  intros Hpre Ht Hw. unfold _read_tarfile.
  rewrite (list_comprehension_raise _ pre m post (KeyError (ti_type m)));
    [done|done|by apply serialize_unknown_type].
Qed.

Lemma startswith_slash_whiteout name :
  startswith "/" name = false → startswith "/.wh." name = false.
Proof.
  intros Habs. destruct (startswith "/.wh." name) eqn:Hw; [|done].
  apply startswith_inv in Hw. rewrite Hw in Habs.
  change ("/.wh." ++ slice_from (String.length "/.wh.") name)
    with ("/" ++ (".wh." ++ slice_from (String.length "/.wh.") name)) in Habs.
  by rewrite (startswith_app "/") in Habs.
Qed.

Lemma dot_normalize_unprefixed name :
  name ≠ "." → startswith "./" name = false → dot_normalize name = name.
Proof.
  intros Hdot Hrel. unfold dot_normalize.
  destruct (String.eqb_spec name ".") as [->|_]; [done|].
  by rewrite Hrel.
Qed.

(** C2, as the code has it: every entry of an inventory read from a tar has a
    type letter among f, d, l, s, c, b and a path that does not begin with
    [/.wh.]; it comes from a member of the archive; its path begins with
    [/] when that member's raw name is [.] or begins with [./] or [/]; and
    when the raw name has none of these forms the path is the raw name,
    unchanged. *)
Theorem inventory_entry_shape members files fi :
  _read_tarfile members = Ok files → fi ∈ files →
  fi_type fi ∈ type_codes ∧
  startswith "/.wh." (fi_path fi) = false ∧
  ∃ m, m ∈ members ∧ _serialize_tar_info m = Ok (Some fi) ∧
       (ti_name m = "." ∨ startswith "./" (ti_name m) = true
          ∨ startswith "/" (ti_name m) = true →
        startswith "/" (fi_path fi) = true) ∧
       (ti_name m ≠ "." → startswith "./" (ti_name m) = false →
        startswith "/" (ti_name m) = false →
        fi_path fi = ti_name m).
Proof.
  intros Hr Hfi.
  destruct (read_tarfile_elem _ _ _ Hr Hfi) as (m & Hm & Hs).
  destruct (serialize_Some_inv _ _ Hs) as (Hp & Hw & Ht).
  split; [by eapply FILE_TYPES_codes|]. split; [done|].
  exists m. split; [done|]. split; [done|]. split.
  - intros Hroot. apply dot_normalize_rooted in Hroot.
    rewrite Hp. by apply strip_whiteout_rooted.
  - intros Hdot Hrel Habs. rewrite Hp.
    rewrite (dot_normalize_unprefixed _ Hdot Hrel).
    by rewrite (strip_whiteout_other _ _ (startswith_slash_whiteout _ Habs)).
Qed.

Lemma inventory_entry_shape_witness :
  fi_type (mkFileInfo "bar" (mkFileTail "f" false 0 0 420 0 0)) ∈ type_codes ∧
  startswith "/.wh."
    (fi_path (mkFileInfo "bar" (mkFileTail "f" false 0 0 420 0 0))) = false ∧
  ∃ m, m ∈ [regular_member "./foo"; regular_member "bar"] ∧
       _serialize_tar_info m
         = Ok (Some (mkFileInfo "bar" (mkFileTail "f" false 0 0 420 0 0))) ∧
       (ti_name m = "." ∨ startswith "./" (ti_name m) = true
          ∨ startswith "/" (ti_name m) = true →
        startswith "/"
          (fi_path (mkFileInfo "bar" (mkFileTail "f" false 0 0 420 0 0)))
          = true) ∧
       (ti_name m ≠ "." → startswith "./" (ti_name m) = false →
        startswith "/" (ti_name m) = false →
        fi_path (mkFileInfo "bar" (mkFileTail "f" false 0 0 420 0 0))
          = ti_name m).
Proof.
  apply (inventory_entry_shape
           [regular_member "./foo"; regular_member "bar"]
           [mkFileInfo "/foo" (mkFileTail "f" false 0 0 420 0 0);
            mkFileInfo "bar" (mkFileTail "f" false 0 0 420 0 0)]
           (mkFileInfo "bar" (mkFileTail "f" false 0 0 420 0 0))).
  - vm_compute. reflexivity.
  - apply list_elem_of_lookup. exists 1%nat. reflexivity.
Defined.

(** C2 as stated fails: the member named [foo] (a raw name that starts with
    neither [.] nor [./] nor [/]) produces an inventory entry whose path is
    [foo], which does not begin with [/]. *)
Lemma relative_name_keeps_no_slash :
  _read_tarfile [regular_member "foo"]
    = Ok [tar_entry (regular_member "foo") "foo" "f" false] ∧
  startswith "/" (fi_path (tar_entry (regular_member "foo") "foo" "f" false))
    = false.
Proof. split; vm_compute; reflexivity. Qed.

(** A whiteout below the root is neither stripped nor suppressed. *)
Example nested_whiteout_kept :
  _serialize_tar_info (regular_member "./a/.wh.b")
    = Ok (Some (tar_entry (regular_member "./a/.wh.b") "/a/.wh.b" "f" false)) ∧
  contains "/.wh." "/a/.wh.b" = true.
Proof. split; vm_compute; reflexivity. Qed.

(** C3: for a member of a supported type, the name [.] gives the path [/];
    a name [./r] gives [/r]; a name that begins with [/.wh.] after these
    steps loses the [.wh.] prefix and the entry is flagged deleted; a name
    that is exactly [/.wh.] after the strip gives no entry; and the tar with
    [./foo] and [./.wh.bar] gives [/foo] (not deleted) and [/bar]
    (deleted).  Every entry is written out field by field: path, type
    letter, deleted flag, then size, mtime, mode, uid and gid of the
    member. *)
Theorem serialize_name_normalization (m : TarInfo) (c r : string) :
  FILE_TYPES !! ti_type m = Some c →
  startswith ".wh." r = false →
  (ti_name m = "." →
     _serialize_tar_info m
     = Ok (Some {| fi_path := "/";
                   fi_tail := {| ft_type := c; ft_deleted := false;
                                 ft_size := ti_size m; ft_mtime := ti_mtime m;
                                 ft_mode := ti_mode m; ft_uid := ti_uid m;
                                 ft_gid := ti_gid m |} |})) ∧
  (ti_name m = "./" ++ r →
     _serialize_tar_info m
     = Ok (Some {| fi_path := "/" ++ r;
                   fi_tail := {| ft_type := c; ft_deleted := false;
                                 ft_size := ti_size m; ft_mtime := ti_mtime m;
                                 ft_mode := ti_mode m; ft_uid := ti_uid m;
                                 ft_gid := ti_gid m |} |})) ∧
  (dot_normalize (ti_name m) = "/.wh." ++ r →
     _serialize_tar_info m
     = Ok (Some {| fi_path := "/" ++ r;
                   fi_tail := {| ft_type := c; ft_deleted := true;
                                 ft_size := ti_size m; ft_mtime := ti_mtime m;
                                 ft_mode := ti_mode m; ft_uid := ti_uid m;
                                 ft_gid := ti_gid m |} |})) ∧
  ((strip_whiteout (dot_normalize (ti_name m)) false).1 = "/.wh." →
     _serialize_tar_info m = Ok None) ∧
  _read_tarfile [mkTarInfo "./foo" tarfile.REGTYPE 3 7 420 1 2;
                 mkTarInfo "./.wh.bar" tarfile.REGTYPE 0 8 384 1 2]
    = Ok [ {| fi_path := "/foo";
              fi_tail := {| ft_type := "f"; ft_deleted := false;
                            ft_size := 3; ft_mtime := 7; ft_mode := 420;
                            ft_uid := 1; ft_gid := 2 |} |};
           {| fi_path := "/bar";
              fi_tail := {| ft_type := "f"; ft_deleted := true;
                            ft_size := 0; ft_mtime := 8; ft_mode := 384;
                            ft_uid := 1; ft_gid := 2 |} |} ].
Proof.
  intros Hc Hr. split; [|split; [|split; [|split]]].
  - intros Hn. apply (serialize_entry m c "/" false);
      [done| by rewrite Hn | done].
  - intros Hn. apply (serialize_entry m c ("/" ++ r) false); [done| |].
    + rewrite Hn, dot_normalize_dot_slash.
      apply strip_whiteout_other.
      by rewrite (startswith_slash ".wh." r).
    + by rewrite (startswith_slash ".wh." r).
  - intros Hn. apply (serialize_entry m c ("/" ++ r) true); [done| |].
    + rewrite Hn. apply strip_whiteout_prefix.
    + by rewrite (startswith_slash ".wh." r).
  - intros Hn. rewrite serialize_stages. simpl. by rewrite Hn.
  - vm_compute. reflexivity.
Qed.

Lemma serialize_name_normalization_witness :
  _serialize_tar_info (mkTarInfo "./.wh.bar" tarfile.REGTYPE 0 8 384 1 2)
    = Ok (Some {| fi_path := "/bar";
                  fi_tail := {| ft_type := "f"; ft_deleted := true;
                                ft_size := 0; ft_mtime := 8; ft_mode := 384;
                                ft_uid := 1; ft_gid := 2 |} |}).
Proof.
  refine (proj1 (proj2 (proj2
    (serialize_name_normalization
       (mkTarInfo "./.wh.bar" tarfile.REGTYPE 0 8 384 1 2) "f" "bar" _ _)))
    _).
  - vm_compute. reflexivity.
  - reflexivity.
  - reflexivity.
Defined.

(** The bare whiteout [./.wh.] is not one of the suppressed names: after the
    strip its name is [/], and it is listed as a deleted entry. *)
Example bare_whiteout_listed :
  _serialize_tar_info (regular_member "./.wh.")
    = Ok (Some (mkFileInfo "/" (mkFileTail "f" true 0 0 420 0 0))).
Proof. vm_compute. reflexivity. Qed.

(** The names that still begin with [/.wh.] after the strip. *)
Lemma double_whiteout_names r :
  (strip_whiteout (dot_normalize ("./.wh..wh." ++ r)) false).1 = "/.wh." ++ r ∧
  (strip_whiteout (dot_normalize ("/.wh..wh." ++ r)) false).1 = "/.wh." ++ r.
Proof.
  split.
  - change ("./.wh..wh." ++ r) with ("./" ++ (".wh..wh." ++ r)).
    rewrite dot_normalize_dot_slash.
    change ("/" ++ ".wh..wh." ++ r) with ("/.wh." ++ (".wh." ++ r)).
    by rewrite strip_whiteout_prefix.
  - change (dot_normalize ("/.wh..wh." ++ r)) with ("/.wh." ++ (".wh." ++ r)).
    by rewrite strip_whiteout_prefix.
Qed.

(** C9: a member whose name still begins with [/.wh.] after the [./]-to-[/]
    normalization and one strip of the [.wh.] prefix (a union metadata file
    such as [./.wh..wh.foo]) produces no entry, whatever follows the second
    [.wh.] and whatever the member's type: the suppression is not limited to
    the name that is exactly [/.wh.].  These are the members whose
    normalized name begins with [/.wh..wh.]. *)
Theorem whiteout_of_whiteout_suppressed (m : TarInfo) :
  startswith "/.wh." (strip_whiteout (dot_normalize (ti_name m)) false).1
    = true →
  _serialize_tar_info m = Ok None ∧
  ∃ r, dot_normalize (ti_name m) = "/.wh..wh." ++ r.
Proof.
  intros Hw. split.
  - rewrite serialize_stages. simpl. by rewrite Hw.
  - unfold strip_whiteout in Hw.
    destruct (startswith "/.wh." (dot_normalize (ti_name m))) eqn:Hn;
      cbn [fst] in Hw; [|congruence].
    rewrite (startswith_slash ".wh." _) in Hw.
    apply startswith_inv in Hn. apply startswith_inv in Hw.
    exists (slice_from 4 (slice_from 5 (dot_normalize (ti_name m)))).
    rewrite Hn at 1. cbn [String.length]. rewrite Hw at 1. reflexivity.
Qed.

Lemma whiteout_of_whiteout_suppressed_witness :
  _serialize_tar_info
    (mkTarInfo "./.wh..wh.foo" tarfile.FIFOTYPE 0 0 420 0 0) = Ok None.
Proof.
  apply (whiteout_of_whiteout_suppressed
           (mkTarInfo "./.wh..wh.foo" tarfile.FIFOTYPE 0 0 420 0 0)).
  reflexivity.
Defined.

(** The condition is on the normalized name: a raw name without leading
    [./] or [/], such as [.wh..wh.foo], is not normalized, does not begin
    with [/.wh.], and its member is listed under its raw name. *)
Example bare_double_whiteout_kept :
  _serialize_tar_info (regular_member ".wh..wh.foo")
    = Ok (Some (tar_entry (regular_member ".wh..wh.foo")
                          ".wh..wh.foo" "f" false)).
Proof. vm_compute. reflexivity. Qed.

(** ** Running the handler monad *)

Lemma run_bind_ok {A B} (m : M A) (k : A → M B) w a w' :
  m w = (Ok a, w') → bind m k w = k a w'.
Proof. unfold bind. by intros ->. Qed.

Lemma run_bind_raise {A B} (m : M A) (k : A → M B) w e w' :
  m w = (Raise e, w') → bind m k w = (Raise e, w').
Proof. unfold bind. by intros ->. Qed.

Lemma run_try_except_ok {A} (m : M A) handles h w a w' :
  m w = (Ok a, w') → try_except m handles h w = (Ok a, w').
Proof. unfold try_except. by intros ->. Qed.

Lemma run_try_except_caught {A} (m : M A) handles h w e w' :
  m w = (Raise e, w') → handles e = true →
  try_except m handles h w = h w'.
Proof. unfold try_except. by intros -> ->. Qed.

Lemma run_store_exists {V} (family : Store → gmap string V) image_id w :
  store_exists family image_id w
  = (Ok (bool_decide (is_Some (family (store w) !! image_id))), w).
Proof. reflexivity. Qed.

Lemma run_store_exists_None {V} (family : Store → gmap string V) image_id w :
  family (store w) !! image_id = None →
  store_exists family image_id w = (Ok false, w).
Proof.
  intros Hv. rewrite run_store_exists.
  by rewrite bool_decide_eq_false_2 by (rewrite Hv; intros [? ?]; done).
Qed.

Lemma run_get_content_Some {V} (family : Store → gmap string V) image_id w v :
  family (store w) !! image_id = Some v →
  store_get_content family image_id w = (Ok v, w).
Proof. intros Hv. unfold store_get_content, bind, get_store. by rewrite Hv. Qed.

Lemma run_get_content_None {V} (family : Store → gmap string V) image_id w :
  family (store w) !! image_id = None →
  store_get_content family image_id w = (Raise IOError, w).
Proof. intros Hv. unfold store_get_content, bind, get_store. by rewrite Hv. Qed.

Lemma with_files_insert_id image_id files s :
  st_files s !! image_id = Some files →
  with_files <[image_id := files]> s = s.
Proof.
  intros Hf. destruct s. unfold with_files. simpl in *. by rewrite insert_id.
Qed.

Section handlers.
Context `{Externals}.

(** [_get_image_files] yields the inventory of the image and caches it. *)
Lemma run_get_image_files image_id w :
  _get_image_files image_id w =
    match inventory (store w) image_id with
    | Ok files => (Ok files, remember_files image_id files w)
    | Raise e => (Raise e, w)
    end.
Proof.
  unfold _get_image_files, inventory, _get_image_files_cache.
  unfold bind at 1. unfold bind at 1. unfold get_store at 1, ret at 1.
  destruct (st_files (store w) !! image_id) as [files|] eqn:Hf.
  - unfold ret, remember_files. rewrite with_files_insert_id by done.
    by destruct w.
  - destruct (st_layer (store w) !! image_id) as [layer|] eqn:Hl.
    + rewrite (run_bind_ok _ _ w layer w) by by apply run_get_content_Some.
      unfold bind, lift.
      destruct (_get_image_files_from_fobj layer); reflexivity.
    + by rewrite (run_bind_raise _ _ w IOError w)
        by by apply run_get_content_None.
Qed.

(** *** [PUT json] *)

(** C8 fails on the code: when the body does not parse, [json.loads] raises,
    the handler of the [try] only passes, and the test [not data] reads a
    local that was never assigned.  The request ends with an uncaught
    [UnboundLocalError], not with the [Invalid JSON] reply; the store and the
    session are untouched. *)
Theorem put_json_unparseable_body_raises image_id req w :
  json_loads (req_data req) = None →
  put_image_json image_id req w = (Raise (UnboundLocalError "data"), w).
Proof. intros Hp. unfold put_image_json. rewrite Hp. reflexivity. Qed.

(** C1 fails on the code: a [PUT json] for an image whose json exists and
    whose mark does not is answered with 409, yet the checksum step has
    already run: the stored checksum is deleted when the request has no
    [X-Docker-Checksum] header and replaced by the header otherwise. *)
Theorem put_json_conflict_changes_checksum image_id req w data :
  json_loads (req_data req) = Some data →
  truthy data = true → is_dict data = true →
  obj_get "id" data = Some (JStr image_id) →
  obj_get "parent" data = None →
  sess_repository (session w) = None →
  (∀ c, req_checksum req = Some c → c ≠ "" →
        length (split_on ":" c) = 2%nat) →
  is_Some (st_json (store w) !! image_id) →
  st_mark (store w) !! image_id = None →
  put_image_json image_id req w =
    (Ok (api_error "Image already exists" (Some 409)),
     {| store := with_checksum
                   (checksum_after_header image_id (req_checksum req))
                   (store w);
        session := session w |}).
Proof.
  intros Hp Ht Hd Hid Hpar Hsess Hfmt [j Hj] Hmark.
  destruct w as [s [sc sr]]. simpl in Hsess, Hj, Hmark. subst sr.
  unfold put_image_json. rewrite Hp.
  unfold read_local, bind at 1, ret at 1.
  rewrite Ht, Hd. cbn [negb orb]. rewrite Hid.
  assert (Hrest : ∀ cs,
    (if differs_from image_id (JStr image_id)
     then ret (api_error "JSON data contains invalid id" None)
     else
       listed ←m check_images_list image_id;
       if negb listed
       then ret (api_error "This image does not belong to the repository" None)
       else
         let parent_id := obj_get "parent" data in
         parent_missing ←m
           match parent_id with
           | Some p =>
               if truthy p then
                 e ←m store_exists st_json (image_key p); ret (negb e)
               else ret false
           | None => ret false
           end;
         if (parent_missing : bool)
         then ret (api_error "Image depends on a non existing parent" None)
         else
           has_json ←m store_exists st_json image_id;
           has_mark ←m store_exists st_mark image_id;
           if has_json && negb has_mark
           then ret (api_error "Image already exists" (Some 409))
           else
             modify_store (with_mark <[image_id := "true"]>);m
             modify_store (with_json <[image_id := req_data req]>);m
             generate_ancestry image_id parent_id;m
             ret (response PTrue false))
      {| store := with_checksum cs s; session := mkSession sc None |}
    = (Ok (api_error "Image already exists" (Some 409)),
       {| store := with_checksum cs s; session := mkSession sc None |})).
  { intros cs. unfold differs_from. rewrite String.eqb_refl.
    cbn [negb]. rewrite Hpar.
    unfold bind, check_images_list, get_session, store_exists, get_store, ret.
    cbn. rewrite Hj, Hmark.
    rewrite bool_decide_eq_true_2 by eauto.
    rewrite bool_decide_eq_false_2 by (intros [? ?]; done). done. }
  unfold checksum_after_header.
  destruct (req_checksum req) as [c|] eqn:Hc.
  - destruct (String.eqb_spec c "") as [->|Hcne].
    + cbn [negb]. unfold bind at 1 2, modify_store at 1, ret at 1.
      cbn [store session]. apply Hrest.
    + cbn [negb]. unfold store_checksum. rewrite (Hfmt c eq_refl Hcne).
      cbn [Nat.eqb negb].
      unfold bind at 1 2, modify_store at 1, ret at 1.
      cbn [store session]. apply Hrest.
  - unfold bind at 1 2, modify_store at 1, ret at 1.
    cbn [store session]. apply Hrest.
Qed.

(** *** [GET files] *)

(** C7 fails on the code: when the inventory is read from a layer with a
    member whose type is not a key of [FILE_TYPES] (and whose name is not one
    of the suppressed ones), the lookup raises [KeyError].  [get_image_files]
    handles [IOError] and [tarfile.TarError] only, so the error leaves the
    handler: no 400 reply is built and nothing is cached. *)
Theorem get_files_unknown_type_raises image_id req w layer pre m post :
  st_mark (store w) !! image_id = None →
  req_if_modified_since req = false →
  req_repository req = None →
  st_files (store w) !! image_id = None →
  st_layer (store w) !! image_id = Some layer →
  read_archive layer = Ok (pre ++ m :: post)%list →
  Forall (λ y, ∃ b, _serialize_tar_info y = Ok b) pre →
  FILE_TYPES !! ti_type m = None →
  startswith "/.wh." (strip_whiteout (dot_normalize (ti_name m)) false).1
    = false →
  get_image_files image_id req w = (Raise (KeyError (ti_type m)), w).
Proof.
  intros Hmark Hims Hrepo Hfiles Hlayer Harch Hpre Ht Hw.
  assert (Hinv : inventory (store w) image_id = Raise (KeyError (ti_type m))).
  { unfold inventory, _get_image_files_from_fobj.
    rewrite Hfiles, Hlayer, Harch. cbn [result_bind].
    by apply read_tarfile_unknown_type. }
  unfold get_image_files, require_completion.
  rewrite (run_bind_ok _ _ w false w) by by apply run_store_exists_None.
  unfold set_cache_headers. rewrite Hims.
  unfold get_image_files_body, try_handlers. rewrite Hrepo.
  rewrite (run_bind_ok _ _ w false w) by reflexivity.
  rewrite (run_bind_raise _ _ w (KeyError (ti_type m)) w); [done|].
  by rewrite run_get_image_files, Hinv.
Qed.

(** *** [PUT layer] *)

Lemma after_stream_frame image_id req w :
  st_mark (store (after_stream image_id req w)) = st_mark (store w) ∧
  st_checksum (store (after_stream image_id req w)) = st_checksum (store w) ∧
  session (after_stream image_id req w) = session w.
Proof.
  unfold after_stream. by destruct (_get_image_files_from_fobj _).
Qed.

Lemma run_cache_files image_id req w :
  try_except
    (files ←m lift (_get_image_files_from_fobj (req_data req));
     _set_image_files_cache image_id files)
    is_Exception (ret tt)
    {| store := with_layer <[image_id := req_data req]> (store w);
       session := session w |}
  = (Ok tt, after_stream image_id req w).
Proof.
  unfold try_except, bind, lift, after_stream.
  by destruct (_get_image_files_from_fobj _).
Qed.

(** [put_image_layer] past its two opening checks, by the stored checksum. *)
Lemma run_put_image_layer image_id req w json_data :
  st_json (store w) !! image_id = Some json_data →
  (is_Some (st_layer (store w) !! image_id) →
   is_Some (st_mark (store w) !! image_id)) →
  let csums := computed_csums json_data (req_data req) in
  put_image_layer image_id req w =
    match st_checksum (store w) !! image_id with
    | None =>
        (Ok (response PTrue false),
         {| store := store (after_stream image_id req w);
            session :=
              mkSession (Some csums)
                (sess_repository (session (after_stream image_id req w))) |})
    | Some checksum =>
        if bool_decide (checksum ∈ csums)
        then (Ok (response PTrue false),
              {| store := with_mark (delete image_id)
                            (store (after_stream image_id req w));
                 session := session (after_stream image_id req w) |})
        else (Ok (api_error "Checksum mismatch, ignoring the layer" None),
              after_stream image_id req w)
    end.
Proof.
  intros Hjson Hopen csums.
  destruct (after_stream_frame image_id req w) as (Hm & Hc & Hs).
  unfold put_image_layer.
  rewrite (run_bind_ok _ _ w (Some json_data) w).
  2:{ apply run_try_except_ok.
      by rewrite (run_bind_ok _ _ w json_data w)
        by by apply run_get_content_Some. }
  rewrite (run_bind_ok _ _ w _ w) by apply run_store_exists.
  rewrite (run_bind_ok _ _ w _ w) by apply run_store_exists.
  assert (Hcond :
    bool_decide (is_Some (st_layer (store w) !! image_id))
    && negb (bool_decide (is_Some (st_mark (store w) !! image_id))) = false).
  { destruct (decide (is_Some (st_layer (store w) !! image_id))) as [Hl|Hl].
    - rewrite (bool_decide_eq_true_2 _ (Hopen Hl)). apply andb_false_r.
    - by rewrite (bool_decide_eq_false_2 _ Hl). }
  rewrite Hcond. cbn zeta.
  rewrite (run_bind_ok _ _ w tt
             {| store := with_layer <[image_id := req_data req]> (store w);
                session := session w |}) by reflexivity.
  rewrite (run_bind_ok _ _ _ tt (after_stream image_id req w))
    by apply run_cache_files.
  fold csums.
  destruct (st_checksum (store w) !! image_id) as [checksum|] eqn:Hck.
  - rewrite (run_bind_ok _ _ _ (Some checksum) (after_stream image_id req w)).
    2:{ apply run_try_except_ok.
        rewrite (run_bind_ok _ _ _ checksum (after_stream image_id req w));
          [done|].
        apply run_get_content_Some. by rewrite Hc. }
    by destruct (bool_decide (checksum ∈ csums)).
  - rewrite (run_bind_ok _ _ _ None (after_stream image_id req w)).
    2:{ rewrite (run_try_except_caught _ _ _ _ IOError
                   (after_stream image_id req w)); [done| |done].
        apply run_bind_raise, run_get_content_None. by rewrite Hc. }
    reflexivity.
Qed.


End handlers.

Lemma put_json_unparseable_body_raises_witness :
  @put_image_json example_externals "a" (mkRequest "{" None false None)
     (mkWorld empty_store no_session)
  = (Raise (UnboundLocalError "data"), mkWorld empty_store no_session).
Proof.
  apply (@put_json_unparseable_body_raises example_externals).
  reflexivity.
Defined.

Lemma put_json_conflict_changes_checksum_witness :
  @put_image_json example_externals "a"
     (mkRequest manifest_a None false None) (mkWorld finalized_a no_session)
  = (Ok (api_error "Image already exists" (Some 409)),
     mkWorld (with_checksum (delete "a") finalized_a) no_session).
Proof.
  apply (@put_json_conflict_changes_checksum example_externals "a"
           (mkRequest manifest_a None false None)
           (mkWorld finalized_a no_session) (JObj [("id", JStr "a")])).
  - reflexivity.
  - reflexivity.
  - reflexivity.
  - reflexivity.
  - reflexivity.
  - reflexivity.
  - intros c Hc. discriminate Hc.
  - exists manifest_a. vm_compute. reflexivity.
  - vm_compute. reflexivity.
Defined.

Lemma get_files_unknown_type_raises_witness :
  @get_image_files example_externals "p" (mkRequest "" None false None)
     (mkWorld pipe_store no_session)
  = (Raise (KeyError tarfile.FIFOTYPE), mkWorld pipe_store no_session).
Proof.
  apply (@get_files_unknown_type_raises example_externals "p"
           (mkRequest "" None false None) (mkWorld pipe_store no_session)
           "pipe.tar" [] pipe_member []).
  - vm_compute. reflexivity.
  - reflexivity.
  - reflexivity.
  - vm_compute. reflexivity.
  - vm_compute. reflexivity.
  - reflexivity.
  - constructor.
  - vm_compute. reflexivity.
  - reflexivity.
Defined.


(** ** The diff engine *)

Section classify.
Variable anc : gmap string FileTail.

Lemma classify_other st k0 v0 k :
  k ≠ k0 →
  ds_info_map (classify anc st (k0, v0)) !! k = ds_info_map st !! k ∧
  ds_deleted (classify anc st (k0, v0)) !! k = ds_deleted st !! k ∧
  ds_changed (classify anc st (k0, v0)) !! k = ds_changed st !! k ∧
  ds_created (classify anc st (k0, v0)) !! k = ds_created st !! k.
Proof.
  intros Hne. unfold classify.
  destruct (ft_deleted v0); [|destruct (anc !! k0) as [a|]; [destruct (ft_deleted a)|]];
    simpl; rewrite ?lookup_delete_ne, ?lookup_insert_ne by done; done.
Qed.

Lemma spec_cases k v :
  (ft_deleted v = true ∧
     spec_to_deleted (k, v) ∧ ¬ spec_stays anc (k, v) ∧
     ¬ spec_to_changed anc (k, v) ∧ ¬ spec_to_created anc (k, v)) ∨
  (ft_deleted v = false ∧ (∃ a, anc !! k = Some a ∧ ft_deleted a = true) ∧
     ¬ spec_to_deleted (k, v) ∧ ¬ spec_stays anc (k, v) ∧
     ¬ spec_to_changed anc (k, v) ∧ spec_to_created anc (k, v)) ∨
  (ft_deleted v = false ∧ (∃ a, anc !! k = Some a ∧ ft_deleted a = false) ∧
     ¬ spec_to_deleted (k, v) ∧ ¬ spec_stays anc (k, v) ∧
     spec_to_changed anc (k, v) ∧ ¬ spec_to_created anc (k, v)) ∨
  (ft_deleted v = false ∧ anc !! k = None ∧
     ¬ spec_to_deleted (k, v) ∧ spec_stays anc (k, v) ∧
     ¬ spec_to_changed anc (k, v) ∧ ¬ spec_to_created anc (k, v)).
Proof.
  unfold spec_stays, spec_to_deleted, spec_to_changed, spec_to_created. simpl.
  destruct (ft_deleted v) eqn:Hv.
  - left. repeat split; try done; intros [? ?]; congruence.
  - right. destruct (anc !! k) as [a|] eqn:Ha; simpl.
    + destruct (ft_deleted a) eqn:Hd.
      * left. repeat split; eauto; try congruence; intros [? ?]; congruence.
      * right; left.
        repeat split; eauto; try congruence; intros [? ?]; congruence.
    + right; right. repeat split; try done; intros [? ?]; congruence.
Qed.

Lemma classify_self st k v :
  ds_info_map (classify anc st (k, v)) !! k
    = (if decide (spec_stays anc (k, v)) then ds_info_map st !! k else None) ∧
  ds_deleted (classify anc st (k, v)) !! k
    = (if decide (spec_to_deleted (k, v)) then Some v else ds_deleted st !! k) ∧
  ds_changed (classify anc st (k, v)) !! k
    = (if decide (spec_to_changed anc (k, v)) then Some v else ds_changed st !! k) ∧
  ds_created (classify anc st (k, v)) !! k
    = (if decide (spec_to_created anc (k, v)) then Some v else ds_created st !! k).
Proof.
  destruct (spec_cases k v)
    as [(Hv & ? & ? & ? & ?)
       |[(Hv & (a & Ha & Hd) & ? & ? & ? & ?)
        |[(Hv & (a & Ha & Hd) & ? & ? & ? & ?)
         |(Hv & Ha & ? & ? & ? & ?)]]];
    unfold classify; rewrite Hv, ?Ha, ?Hd;
    cbn [ds_info_map ds_deleted ds_changed ds_created];
    rewrite ?lookup_delete_eq, ?lookup_insert_eq;
    repeat case_decide; done.
Qed.

Lemma foldl_classify_lookups l :
  NoDup l.*1 → ∀ st k,
  let st' := foldl (classify anc) st l in
  let o := (list_to_map l : gmap string FileTail) !! k in
  ds_info_map st' !! k
    = match o with
      | Some v => if decide (spec_stays anc (k, v))
                  then ds_info_map st !! k else None
      | None => ds_info_map st !! k
      end ∧
  ds_deleted st' !! k
    = match o with
      | Some v => if decide (spec_to_deleted (k, v))
                  then Some v else ds_deleted st !! k
      | None => ds_deleted st !! k
      end ∧
  ds_changed st' !! k
    = match o with
      | Some v => if decide (spec_to_changed anc (k, v))
                  then Some v else ds_changed st !! k
      | None => ds_changed st !! k
      end ∧
  ds_created st' !! k
    = match o with
      | Some v => if decide (spec_to_created anc (k, v))
                  then Some v else ds_created st !! k
      | None => ds_created st !! k
      end.
Proof.
  induction l as [|[k0 v0] l IH]; intros Hnd st k; cbv zeta.
  - cbn [foldl list_to_map foldr]. by rewrite lookup_empty.
  - rewrite fmap_cons in Hnd. cbn [fst] in Hnd. apply NoDup_cons in Hnd as [Hk0 Hnd].
    cbn [foldl]. rewrite list_to_map_cons.
    destruct (IH Hnd (classify anc st (k0, v0)) k) as (H1 & H2 & H3 & H4).
    rewrite H1, H2, H3, H4. clear H1 H2 H3 H4.
    destruct (decide (k = k0)) as [->|Hne].
    + rewrite (not_elem_of_list_to_map_1 _ _ Hk0), lookup_insert_eq.
      apply classify_self.
    + rewrite lookup_insert_ne by done.
      destruct (classify_other st k0 v0 k Hne) as (H1 & H2 & H3 & H4).
      rewrite H1, H2, H3, H4. done.
Qed.

(** The inner loop of the code does what one step of the specification says. *)
Lemma walk_items_spec st : walk_items anc st = spec_diff_step st anc.
Proof.
  unfold walk_items, spec_diff_step.
  pose proof (foldl_classify_lookups (map_to_list (ds_info_map st))
                (NoDup_fst_map_to_list _) st) as Hl.
  rewrite list_to_map_to_list in Hl.
  destruct (foldl (classify anc) st (map_to_list (ds_info_map st)))
    as [top' del' ch' cr'] eqn:Hf.
  simpl in Hl.
  clear Hf.
  f_equal; apply map_eq; intros k; destruct (Hl k) as (H1 & H2 & H3 & H4);
    clear Hl.
  - rewrite H1, map_lookup_filter. clear H1 H2 H3 H4.
    destruct (ds_info_map st !! k); simpl; [|done].
    case_decide; case_guard; done.
  - rewrite H2, lookup_union, map_lookup_filter. clear H1 H2 H3 H4.
    destruct (ds_info_map st !! k); simpl.
    + case_decide; case_guard; try done; simpl;
        [by destruct (ds_deleted st !! k)|by rewrite (left_id_L None _)].
    + by rewrite (left_id_L None _).
  - rewrite H3, lookup_union, map_lookup_filter. clear H1 H2 H3 H4.
    destruct (ds_info_map st !! k); simpl.
    + case_decide; case_guard; try done; simpl;
        [by destruct (ds_changed st !! k)|by rewrite (left_id_L None _)].
    + by rewrite (left_id_L None _).
  - rewrite H4, lookup_union, map_lookup_filter. clear H1 H2 H3 H4.
    destruct (ds_info_map st !! k); simpl.
    + case_decide; case_guard; try done; simpl;
        [by destruct (ds_created st !! k)|by rewrite (left_id_L None _)].
    + by rewrite (left_id_L None _).
Qed.

End classify.


Lemma partitions_init (top : gmap string FileTail) :
  partitions (dom top)
    {| ds_info_map := top; ds_deleted := ∅; ds_changed := ∅; ds_created := ∅ |}.
Proof.
  intros k. cbn [ds_info_map ds_deleted ds_changed ds_created].
  rewrite !lookup_empty. destruct (top !! k) eqn:Hk.
  - apply elem_of_dom. eauto.
  - by apply not_elem_of_dom.
Qed.

Lemma partitions_step D st anc :
  partitions D st → partitions D (spec_diff_step st anc).
Proof.
  intros Hinv k. specialize (Hinv k).
  unfold spec_diff_step. cbn [ds_info_map ds_deleted ds_changed ds_created].
  rewrite !lookup_union, !map_lookup_filter.
  destruct (ds_info_map st !! k) as [v|]; simpl.
  - destruct (ds_deleted st !! k), (ds_changed st !! k), (ds_created st !! k);
      try done.
    destruct (spec_cases anc k v)
      as [(_ & ? & ? & ? & ?)
         |[(_ & _ & ? & ? & ? & ?)
          |[(_ & _ & ? & ? & ? & ?)
           |(_ & _ & ? & ? & ? & ?)]]];
      repeat case_guard; done.
  - by rewrite !(left_id_L None _).
Qed.

Lemma partitions_foldl D ancs : ∀ st,
  partitions D st → partitions D (foldl spec_diff_step st ancs).
Proof.
  induction ancs as [|anc ancs IH]; intros st Hinv; [done|].
  cbn [foldl]. by apply IH, partitions_step.
Qed.

Lemma partitions_result D st :
  partitions D st →
  dom (ds_deleted st) ## dom (ds_changed st) ∧
  dom (ds_deleted st) ## dom (ds_info_map st ∪ ds_created st) ∧
  dom (ds_changed st) ## dom (ds_info_map st ∪ ds_created st) ∧
  dom (ds_deleted st) ∪ dom (ds_changed st)
    ∪ dom (ds_info_map st ∪ ds_created st) = D.
Proof.
  intros Hinv.
  assert (Hkey : ∀ k,
    ¬ (k ∈ dom (ds_deleted st) ∧ k ∈ dom (ds_changed st)) ∧
    ¬ (k ∈ dom (ds_deleted st) ∧ k ∈ dom (ds_info_map st ∪ ds_created st)) ∧
    ¬ (k ∈ dom (ds_changed st) ∧ k ∈ dom (ds_info_map st ∪ ds_created st)) ∧
    (k ∈ dom (ds_deleted st) ∪ dom (ds_changed st)
         ∪ dom (ds_info_map st ∪ ds_created st) ↔ k ∈ D)).
  { intros k. specialize (Hinv k).
    rewrite !elem_of_union, !elem_of_dom, lookup_union, !is_Some_alt.
    destruct (ds_info_map st !! k), (ds_deleted st !! k),
      (ds_changed st !! k), (ds_created st !! k); simpl; tauto. }
  repeat split.
  - apply elem_of_disjoint. intros k ? ?. by apply (proj1 (Hkey k)).
  - apply elem_of_disjoint. intros k ? ?. by apply (proj1 (proj2 (Hkey k))).
  - apply elem_of_disjoint. intros k ? ?.
    by apply (proj1 (proj2 (proj2 (Hkey k)))).
  - apply set_eq. intros k. apply (Hkey k).
Qed.

Lemma dom_file_info_map files :
  dom (_get_file_info_map files) = list_to_set (fi_path <$> files).
Proof.
  unfold _get_file_info_map.
  assert (Hgen : ∀ m : gmap string FileTail,
    dom (foldl (λ m fi, <[fi_path fi := fi_tail fi]> m) m files)
    = list_to_set (fi_path <$> files) ∪ dom m).
  { induction files as [|fi files IH]; intros m.
    - cbn. set_solver.
    - cbn [foldl]. rewrite IH, dom_insert_L, fmap_cons. cbn. set_solver. }
  rewrite Hgen, dom_empty_L. set_solver.
Qed.

(** The dict built by [_get_file_info_map], read path by path. *)
Lemma foldl_file_info_map files : ∀ (m : gmap string FileTail) p,
  foldl (λ m fi, <[fi_path fi := fi_tail fi]> m) m files !! p
  = match last (filter (λ fi, fi_path fi = p) files) with
    | Some fi => Some (fi_tail fi)
    | None => m !! p
    end.
Proof.
  induction files as [|x xs IH]; intros m p; [done|].
  cbn [foldl]. rewrite IH, filter_cons.
  destruct (decide (fi_path x = p)) as [<-|Hne].
  - destruct (filter _ xs) as [|y ys] eqn:Hf.
    + cbn [last]. apply lookup_insert_eq.
    + rewrite last_cons_cons. destruct (last (y :: ys)) eqn:Hl; [done|].
      by apply last_None in Hl.
  - destruct (last _); [done|]. by rewrite lookup_insert_ne.
Qed.

Section diff_engine.
Context `{Externals}.

Lemma keeps_refl w : keeps w w.
Proof. by split. Qed.

Lemma keeps_trans w1 w2 w3 : keeps w1 w2 → keeps w2 w3 → keeps w1 w3.
Proof.
  intros [Hd1 Hi1] [Hd2 Hi2]. split; [congruence|].
  intros b. by rewrite Hi2, Hi1.
Qed.

Lemma remember_files_keeps image_id files w :
  inventory (store w) image_id = Ok files →
  keeps w (remember_files image_id files w).
Proof.
  intros Hinv. split; [done|]. intros b.
  unfold inventory, remember_files, with_files in *. cbn [store st_files st_layer].
  destruct (decide (b = image_id)) as [->|Hne].
  - by rewrite lookup_insert_eq, Hinv.
  - by rewrite lookup_insert_ne.
Qed.

Lemma run_walk_ancestor id st w files :
  inventory (store w) id = Ok files →
  walk_ancestor id st w
  = (Ok (spec_diff_step st (_get_file_info_map files)),
     remember_files id files w).
Proof.
  intros Hinv. unfold walk_ancestor.
  rewrite (run_bind_ok _ _ w files (remember_files id files w))
    by by rewrite run_get_image_files, Hinv.
  by rewrite walk_items_spec.
Qed.

Lemma run_for_each_walk ancestry invs :
  ∀ st w,
  Forall2 (λ a fs, inventory (store w) a = Ok fs) ancestry invs →
  ∃ w', for_each ancestry walk_ancestor st w
        = (Ok (foldl spec_diff_step st (_get_file_info_map <$> invs)), w') ∧
        keeps w w'.
Proof.
  revert invs. induction ancestry as [|a ancestry IH]; intros invs st w Hall.
  - apply Forall2_nil_inv_l in Hall as ->. exists w. split; [done|apply keeps_refl].
  - apply Forall2_cons_inv_l in Hall as (fs & invs' & Ha & Hall & ->).
    pose proof (remember_files_keeps a fs w Ha) as Hk.
    destruct (IH invs' (spec_diff_step st (_get_file_info_map fs))
                (remember_files a fs w)) as (w' & Hrun & Hk').
    { eapply Forall2_impl; [exact Hall|].
      intros b bs Hb. simpl in Hb. by rewrite (proj2 Hk b). }
    exists w'. split; [|by eapply keeps_trans].
    cbn [for_each].
    rewrite (run_bind_ok _ _ w _ _ (run_walk_ancestor a st w fs Ha)).
    rewrite Hrun. by rewrite fmap_cons.
Qed.

Lemma for_each_walk_steps ancestry :
  ∀ st w st' w',
  for_each ancestry walk_ancestor st w = (Ok st', w') →
  ∃ ancs, st' = foldl spec_diff_step st ancs.
Proof.
  induction ancestry as [|a ancestry IH]; intros st w st' w' Hrun.
  - injection Hrun as <- _. by exists [].
  - cbn [for_each] in Hrun. unfold bind at 1 in Hrun.
    unfold walk_ancestor in Hrun. unfold bind at 1 in Hrun.
    rewrite run_get_image_files in Hrun.
    destruct (inventory (store w) a) as [fs|e]; [|done].
    unfold ret at 1 in Hrun. rewrite walk_items_spec in Hrun.
    destruct (IH _ _ _ _ Hrun) as [ancs ->].
    by exists (_get_file_info_map fs :: ancs).
Qed.

Lemma run_get_image_diff image_id w data files invs :
  st_diff (store w) !! image_id = None →
  st_ancestry (store w) !! image_id = Some data →
  inventory (store w) image_id = Ok files →
  Forall2 (λ a fs, inventory (store w) a = Ok fs) (drop 1 data) invs →
  ∃ w', keeps w w' ∧
    _get_image_diff image_id w
    = diff_run_result image_id
        (spec_diff (_get_file_info_map files) (_get_file_info_map <$> invs)) w'.
Proof.
  intros Hmiss Hanc Hfiles Hall.
  pose proof (remember_files_keeps image_id files w Hfiles) as Hk1.
  destruct (run_for_each_walk (drop 1 data) invs
              {| ds_info_map := _get_file_info_map files; ds_deleted := ∅;
                 ds_changed := ∅; ds_created := ∅ |}
              (remember_files image_id files w)) as (w' & Hrun & Hk2).
  { eapply Forall2_impl; [exact Hall|].
    intros b bs Hb. simpl in Hb. by rewrite (proj2 Hk1 b). }
  exists w'. split; [by eapply keeps_trans|].
  unfold _get_image_diff.
  rewrite (run_bind_ok _ _ w None w)
    by (unfold _get_image_diff_cache, bind, get_store, ret; by rewrite Hmiss).
  rewrite (run_bind_ok _ _ w data w) by by apply run_get_content_Some.
  cbv zeta.
  rewrite (run_bind_ok _ _ w files (remember_files image_id files w))
    by by rewrite run_get_image_files, Hfiles.
  rewrite (run_bind_ok _ _ _ _ _ Hrun).
  reflexivity.
Qed.

(** C4: for an image whose diff is not cached and whose inventory and
    ancestors' inventories exist, [_get_image_diff] returns what the steps of
    the specification give ([spec_diff]: per ancestor of [ancestry[1:]], in
    order, the entries of the top map that are flagged deleted move to
    [deleted], those found in the ancestor move to [created] or [changed] by
    the ancestor's flag, the others stay; at the end the rest moves to
    [created]), and that result is what the diff cache holds afterwards. *)
Theorem get_image_diff_follows_spec image_id w data files invs :
  st_diff (store w) !! image_id = None →
  st_ancestry (store w) !! image_id = Some data →
  inventory (store w) image_id = Ok files →
  Forall2 (λ a fs, inventory (store w) a = Ok fs) (drop 1 data) invs →
  let d := spec_diff (_get_file_info_map files) (_get_file_info_map <$> invs) in
  ∃ w', _get_image_diff image_id w = (Ok d, w') ∧
        st_diff (store w') = <[image_id := d]> (st_diff (store w)).
Proof.
  intros Hmiss Hanc Hfiles Hall d.
  destruct (run_get_image_diff image_id w data files invs Hmiss Hanc Hfiles Hall)
    as (w1 & [Hd _] & Hrun).
  eexists. split; [exact Hrun|].
  cbn [store with_diff st_diff]. by rewrite Hd.
Qed.

(** C5: in every diff result that [_get_image_diff] computes, the key sets of
    [deleted], [changed] and [created] are pairwise disjoint and their union
    is the set of paths of the top layer's inventory. *)
Theorem diff_partitions_top_inventory image_id w d w' :
  st_diff (store w) !! image_id = None →
  _get_image_diff image_id w = (Ok d, w') →
  ∃ files, inventory (store w) image_id = Ok files ∧
    dom (deleted d) ## dom (changed d) ∧
    dom (deleted d) ## dom (created d) ∧
    dom (changed d) ## dom (created d) ∧
    dom (deleted d) ∪ dom (changed d) ∪ dom (created d)
      = list_to_set (fi_path <$> files).
Proof.
  intros Hmiss Hrun. unfold _get_image_diff in Hrun.
  rewrite (run_bind_ok _ _ w None w) in Hrun
    by (unfold _get_image_diff_cache, bind, get_store, ret; by rewrite Hmiss).
  destruct (st_ancestry (store w) !! image_id) as [data|] eqn:Hanc.
  2:{ by rewrite (run_bind_raise _ _ w IOError w) in Hrun
        by by apply run_get_content_None. }
  rewrite (run_bind_ok _ _ w data w) in Hrun by by apply run_get_content_Some.
  cbv zeta in Hrun. unfold bind at 1 in Hrun.
  rewrite run_get_image_files in Hrun.
  destruct (inventory (store w) image_id) as [files|e] eqn:Hfiles; [|done].
  exists files. split; [done|].
  unfold bind at 1 in Hrun.
  destruct (for_each (drop 1 data) walk_ancestor _ _) as [[st|e] w1] eqn:Hloop;
    [|done].
  apply for_each_walk_steps in Hloop as [ancs ->].
  injection Hrun as <- _. cbn [deleted changed created].
  rewrite <- dom_file_info_map.
  apply partitions_result, partitions_foldl, partitions_init.
Qed.

(** C10: when the ancestry of an image is its own id alone, the loop over
    ancestors runs no iteration: [deleted] and [changed] are empty and
    [created] is the whole top map.  Every entry of the top inventory has its
    path among the keys of [created], whether it is flagged deleted or not,
    and [created] maps each path to the tail of the last inventory entry
    with that path. *)
Theorem diff_without_ancestors_all_created image_id w files :
  st_diff (store w) !! image_id = None →
  st_ancestry (store w) !! image_id = Some [image_id] →
  inventory (store w) image_id = Ok files →
  let d := {| deleted := ∅; changed := ∅;
              created := _get_file_info_map files |} in
  ∃ w', _get_image_diff image_id w = (Ok d, w') ∧
        st_diff (store w') = <[image_id := d]> (st_diff (store w)) ∧
        (∀ fi, fi ∈ files → is_Some (created d !! fi_path fi)) ∧
        (∀ p, created d !! p
              = fi_tail <$> last (filter (λ fi, fi_path fi = p) files)) ∧
        (∀ p tail, created d !! p = Some tail →
                   deleted d !! p = None ∧ changed d !! p = None).
Proof.
  intros Hmiss Hanc Hfiles d.
  destruct (run_get_image_diff image_id w [image_id] files [] Hmiss Hanc Hfiles)
    as (w1 & [Hd _] & Hrun); [constructor|].
  assert (Hspec : spec_diff (_get_file_info_map files) [] = d).
  { unfold spec_diff, d. cbn [foldl ds_info_map ds_deleted ds_changed ds_created].
    by rewrite (right_id_L ∅ (∪)). }
  rewrite fmap_nil, Hspec in Hrun.
  eexists. split; [exact Hrun|]. split.
  { cbn [store with_diff st_diff]. by rewrite Hd. }
  cbn [created deleted changed d]. split; [|split].
  - intros fi Hfi. apply elem_of_dom. rewrite dom_file_info_map.
    apply elem_of_list_to_set, list_elem_of_fmap. by exists fi.
  - intros p. unfold _get_file_info_map. rewrite foldl_file_info_map.
    by destruct (last _).
  - intros p tail _. by rewrite !lookup_empty.
Qed.

End diff_engine.

Lemma get_image_diff_follows_spec_witness :
  ∃ w', @_get_image_diff example_externals "C" (mkWorld three_layers no_session)
        = (Ok (spec_diff (_get_file_info_map files_C)
                 (_get_file_info_map <$> [files_B; files_A])), w') ∧
        st_diff (store w')
        = <["C" := spec_diff (_get_file_info_map files_C)
                     (_get_file_info_map <$> [files_B; files_A])]>
            (st_diff three_layers).
Proof.
  apply (@get_image_diff_follows_spec example_externals "C"
           (mkWorld three_layers no_session) ["C"; "B"; "A"] files_C
           [files_B; files_A]).
  - vm_compute. reflexivity.
  - vm_compute. reflexivity.
  - vm_compute. reflexivity.
  - constructor; [vm_compute; reflexivity|].
    constructor; [vm_compute; reflexivity|].
    constructor.
Defined.

(** The diff of the three-layer example is the one the specification's
    scenario expects. *)
Example diff_three_ways :
  spec_diff (_get_file_info_map files_C)
    (_get_file_info_map <$> [files_B; files_A]) = diff_of_C.
Proof. vm_compute. reflexivity. Qed.

Lemma diff_partitions_top_inventory_witness :
  ∃ files, @inventory example_externals three_layers "C" = Ok files ∧
    dom (deleted diff_of_C) ## dom (changed diff_of_C) ∧
    dom (deleted diff_of_C) ## dom (created diff_of_C) ∧
    dom (changed diff_of_C) ## dom (created diff_of_C) ∧
    dom (deleted diff_of_C) ∪ dom (changed diff_of_C) ∪ dom (created diff_of_C)
      = list_to_set (fi_path <$> files).
Proof.
  apply (@diff_partitions_top_inventory example_externals "C"
           (mkWorld three_layers no_session) diff_of_C
           (@_get_image_diff example_externals "C"
              (mkWorld three_layers no_session)).2).
  - vm_compute. reflexivity.
  - vm_compute. reflexivity.
Defined.

Lemma diff_without_ancestors_all_created_witness :
  ∃ d w', @_get_image_diff example_externals "a"
            (mkWorld single_layer no_session) = (Ok d, w') ∧
          deleted d = ∅ ∧ changed d = ∅ ∧
          created d !! "/foo" = Some (mkFileTail "f" false 3 0 420 0 0) ∧
          created d !! "/bar" = Some (mkFileTail "f" true 0 0 420 0 0).
Proof.
  destruct (@diff_without_ancestors_all_created example_externals "a"
              (mkWorld single_layer no_session)
              [mkFileInfo "/foo" (mkFileTail "f" false 3 0 420 0 0);
               mkFileInfo "/bar" (mkFileTail "f" true 0 0 420 0 0)])
    as (w' & Hrun & _ & _ & Hlast & _).
  - vm_compute. reflexivity.
  - vm_compute. reflexivity.
  - vm_compute. reflexivity.
  - eexists _, w'. split; [exact Hrun|].
    split; [reflexivity|]. split; [reflexivity|].
    split; rewrite Hlast; reflexivity.
Defined.

(** * Further properties of the handlers *)

Lemma list_comprehension_ok {A B} (f : A → result B) (g : A → B) xs :
  Forall (λ x, f x = Ok (g x)) xs →
  list_comprehension f xs = Ok (g <$> xs).
Proof.
  induction 1 as [|x xs Hx _ IH]; [done|].
  cbn [list_comprehension]. rewrite Hx. cbn [result_bind]. by rewrite IH.
Qed.

Lemma list_comprehension_raise_inv {A B} (f : A → result B) xs e :
  list_comprehension f xs = Raise e → ∃ x, x ∈ xs ∧ f x = Raise e.
Proof.
  induction xs as [|x xs IH]; [done|]. cbn [list_comprehension].
  destruct (f x) as [y|e'] eqn:Hx; cbn [result_bind].
  - destruct (list_comprehension f xs) as [ys|e'] eqn:Hxs; cbn [result_bind];
      [done|].
    intros [= ->]. destruct (IH eq_refl) as (x' & ? & ?).
    exists x'. split; [by right|done].
  - intros [= ->]. exists x. split; [left|done].
Qed.

Lemma serialize_raise_inv m e :
  _serialize_tar_info m = Raise e →
  e = KeyError (ti_type m) ∧ FILE_TYPES !! ti_type m = None ∧
  startswith "/.wh." (strip_whiteout (dot_normalize (ti_name m)) false).1 = false.
Proof.
  rewrite serialize_stages. cbv zeta.
  destruct (startswith "/.wh." _) eqn:Hw; [done|].
  unfold dict_getitem. destruct (FILE_TYPES !! ti_type m); [done|].
  cbn [result_bind]. by intros [= <-].
Qed.

(** The comprehensions raise nothing but the [KeyError] of a member. *)
Lemma read_tarfile_raise_inv members e :
  _read_tarfile members = Raise e →
  ∃ m, m ∈ members ∧ e = KeyError (ti_type m) ∧
       FILE_TYPES !! ti_type m = None ∧
       startswith "/.wh." (strip_whiteout (dot_normalize (ti_name m)) false).1
         = false.
Proof.
  unfold _read_tarfile.
  destruct (list_comprehension _ members) as [infos|e'] eqn:Hc;
    cbn [result_bind]; [done|].
  intros [= ->]. apply list_comprehension_raise_inv in Hc as (m & Hm & Hs).
  exists m. split; [done|]. by apply serialize_raise_inv.
Qed.

(** On members of known types the comprehensions return the entries of the
    members that are not suppressed, in order. *)
Lemma read_tarfile_known_types members :
  Forall (λ m, is_Some (FILE_TYPES !! ti_type m)) members →
  ∃ files, _read_tarfile members = Ok files ∧
    fi_path <$> files
      = (λ m, (strip_whiteout (dot_normalize (ti_name m)) false).1)
          <$> filter (λ m, startswith "/.wh."
                (strip_whiteout (dot_normalize (ti_name m)) false).1 = false)
               members.
Proof.
  intros Hsup. exists (omap entry_of members). split.
  - unfold _read_tarfile.
    rewrite (list_comprehension_ok _ entry_of).
    + cbn [result_bind]. f_equal. induction members as [|m ms IH]; [done|].
      rewrite fmap_cons. cbn [omap list_omap]. cbn [id]. 
      apply Forall_cons in Hsup as [_ Hsup]. specialize (IH Hsup).
      cbn [omap] in IH. destruct (entry_of m); by rewrite IH.
    + eapply Forall_impl; [exact Hsup|]. intros m [c Hc]. cbv beta.
      rewrite serialize_stages. unfold entry_of. cbv zeta.
      destruct (startswith "/.wh." _); [done|].
      unfold dict_getitem. by rewrite Hc.
  - clear Hsup. induction members as [|m ms IH]; [done|].
    cbn [omap list_omap]. rewrite filter_cons. unfold entry_of at 1.
    destruct (startswith "/.wh." _) eqn:Hw.
    + rewrite decide_False by done. exact IH.
    + rewrite decide_True by done. rewrite !fmap_cons. by rewrite IH.
Qed.

Section inventory_reading.
Context `{Externals}.

(** X2: [_get_image_files_from_fobj] raises either what opening and reading
    the archive raised ([read_archive]: [layer_archive] and [getmembers]),
    or, once the members are read, the [KeyError] of a member that is not
    suppressed and whose type is not a key of [FILE_TYPES]; nothing else. *)
Theorem files_from_fobj_raises layer e :
  _get_image_files_from_fobj layer = Raise e →
  read_archive layer = Raise e ∨
  ∃ members m, read_archive layer = Ok members ∧ m ∈ members ∧
       e = KeyError (ti_type m) ∧ FILE_TYPES !! ti_type m = None ∧
       startswith "/.wh." (strip_whiteout (dot_normalize (ti_name m)) false).1
         = false.
Proof.
  unfold _get_image_files_from_fobj.
  destruct (read_archive layer) as [members|e'] eqn:Harch; cbn [result_bind].
  - intros Hr. right. exists members.
    destruct (read_tarfile_raise_inv members e Hr) as (m & Hm & He & Ht & Hw).
    by exists m.
  - intros [= ->]. by left.
Qed.

(** X1: when the archive is read and every member has a type that
    [FILE_TYPES] knows, [_get_image_files_from_fobj] returns an inventory;
    its paths are, in archive order, the names after both stages of the
    members that are not suppressed. *)
Theorem files_from_fobj_known_types layer members :
  read_archive layer = Ok members →
  Forall (λ m, is_Some (FILE_TYPES !! ti_type m)) members →
  ∃ files, _get_image_files_from_fobj layer = Ok files ∧
    fi_path <$> files
      = (λ m, (strip_whiteout (dot_normalize (ti_name m)) false).1)
          <$> filter (λ m, startswith "/.wh."
                (strip_whiteout (dot_normalize (ti_name m)) false).1 = false)
               members.
Proof.
  intros Harch Hknown. unfold _get_image_files_from_fobj.
  rewrite Harch. cbn [result_bind].
  by apply read_tarfile_known_types.
Qed.

End inventory_reading.

(** X3: an entry is flagged deleted exactly when the member's name begins
    with [/.wh.] after the [./]-to-[/] normalization, and its size, mtime,
    mode, uid and gid are the member's. *)
Theorem entry_copies_member m fi :
  _serialize_tar_info m = Ok (Some fi) →
  (fi_deleted fi = true ↔ startswith "/.wh." (dot_normalize (ti_name m)) = true) ∧
  ft_size (fi_tail fi) = ti_size m ∧ ft_mtime (fi_tail fi) = ti_mtime m ∧
  ft_mode (fi_tail fi) = ti_mode m ∧ ft_uid (fi_tail fi) = ti_uid m ∧
  ft_gid (fi_tail fi) = ti_gid m.
Proof.
  rewrite serialize_stages. cbv zeta.
  destruct (startswith "/.wh." (strip_whiteout _ _).1); [done|].
  unfold dict_getitem. destruct (FILE_TYPES !! ti_type m); [|done].
  cbn [result_bind]. intros [= <-]. repeat split; try done.
  - unfold fi_deleted, tar_entry, strip_whiteout. cbn [fi_tail ft_deleted].
    by destruct (startswith "/.wh." (dot_normalize (ti_name m))).
  - unfold fi_deleted, tar_entry, strip_whiteout. cbn [fi_tail ft_deleted].
    by intros ->.
Qed.

(** X4: [_get_file_info_map] maps a path to the tail of the last tuple of
    the list with that path, and to nothing when no tuple has it. *)
Theorem file_info_map_last_wins files p :
  _get_file_info_map files !! p
  = fi_tail <$> last (filter (λ fi, fi_path fi = p) files).
Proof.
  unfold _get_file_info_map. rewrite foldl_file_info_map.
  by destruct (last _).
Qed.

Lemma split_on_length sep s :
  length (split_on sep s) = S (count_char sep s).
Proof.
  induction s as [|c s IH]; [done|].
  cbn [split_on count_char]. destruct (Ascii.eqb c sep).
  - cbn [length]. by rewrite IH.
  - destruct (split_on sep s); [done|]. cbn [length] in *. by rewrite IH.
Qed.

(** X5: [store_checksum] stores the checksum (and returns no error) exactly
    when it contains one colon; otherwise it returns the format error and
    leaves the store as it was. *)
Theorem store_checksum_colon_count image_id checksum w :
  store_checksum image_id checksum w =
    if decide (count_char ":" checksum = 1%nat)
    then (Ok None,
          {| store := with_checksum <[image_id := checksum]> (store w);
             session := session w |})
    else (Ok (Some "Invalid checksum format"), w).
Proof.
  unfold store_checksum. rewrite split_on_length.
  destruct (decide (count_char ":" checksum = 1%nat)) as [->|Hne]; [done|].
  destruct (count_char ":" checksum) as [|[|n]]; done.
Qed.

Ltac unfold_handlers :=
  unfold put_image_json, put_image_checksum, generate_ancestry,
    check_images_list, store_checksum, store_get_content, store_exists,
    read_local, try_except, bind, ret, raise, get_store, get_session,
    modify_store, modify_session in *.

Lemma differs_from_false image_id v :
  differs_from image_id v = false → v = JStr image_id.
Proof.
  destruct v; try done. cbn. intros Hs%negb_false_iff.
  by apply String.eqb_eq in Hs as ->.
Qed.

Section put_json.
Context `{Externals}.

Lemma put_json_200_inv image_id req w r w' :
  put_image_json image_id req w = (Ok r, w') →
  resp_code r = 200 →
  ∃ data, json_loads (req_data req) = Some data ∧
    obj_get "id" data = Some (JStr image_id) ∧
    st_json (store w') !! image_id = Some (req_data req) ∧
    st_mark (store w') !! image_id = Some "true" ∧
    st_ancestry (store w') !! image_id
      = Some (image_id :: parent_ancestry (store w) data) ∧
    st_checksum (store w') !! image_id
      = match req_checksum req with
        | Some c => if String.eqb c "" then None else Some c
        | None => None
        end.
Proof.
  destruct w as [s sess]. unfold parent_ancestry.
  unfold_handlers. cbn [store session].
  destruct (json_loads (req_data req)) as [data|]; [|done].
  intros Hrun Hcode. exists data. split; [done|].
  repeat (case_match; simplify_eq/=); try done.
  all: rewrite ?lookup_insert_eq, ?lookup_delete_eq; repeat split; try done.
  all: try (f_equal; by apply differs_from_false).
  all: by match goal with Ha : st_ancestry _ !! _ = Some _ |- _ => rewrite Ha end.
Qed.

(** X7: whenever [put_image_json] replies 200, the body parsed to an object
    whose [id] is the image id, and afterwards the stored json is the request
    body, the mark is set, the ancestry is the image id followed by the
    ancestry of the parent the manifest names, and the stored checksum is the
    header (none without header). *)
Theorem put_json_success image_id req w r w' :
  put_image_json image_id req w = (Ok r, w') →
  resp_code r = 200 →
  ∃ data, json_loads (req_data req) = Some data ∧
    obj_get "id" data = Some (JStr image_id) ∧
    st_json (store w') !! image_id = Some (req_data req) ∧
    st_mark (store w') !! image_id = Some "true" ∧
    st_ancestry (store w') !! image_id
      = Some (image_id :: parent_ancestry (store w) data) ∧
    st_checksum (store w') !! image_id
      = match req_checksum req with
        | Some c => if String.eqb c "" then None else Some c
        | None => None
        end.
Proof. exact (put_json_200_inv image_id req w r w'). Qed.

(** X8: whatever it replies, [put_image_json] leaves the session, the
    layers, the inventories, the diffs, the images lists and the privacy
    flags alone, never removes the image's mark, and changes no json,
    checksum, mark or ancestry of another image. *)
Theorem put_json_frame image_id req w :
  let w' := (put_image_json image_id req w).2 in
  session w' = session w ∧
  st_layer (store w') = st_layer (store w) ∧
  st_files (store w') = st_files (store w) ∧
  st_diff (store w') = st_diff (store w) ∧
  st_images_list (store w') = st_images_list (store w) ∧
  st_private (store w') = st_private (store w) ∧
  (is_Some (st_mark (store w) !! image_id) →
   is_Some (st_mark (store w') !! image_id)) ∧
  ∀ k, k ≠ image_id →
    st_json (store w') !! k = st_json (store w) !! k ∧
    st_checksum (store w') !! k = st_checksum (store w) !! k ∧
    st_mark (store w') !! k = st_mark (store w) !! k ∧
    st_ancestry (store w') !! k = st_ancestry (store w) !! k.
Proof.
  destruct w as [s sess]. unfold_handlers. cbn [store session].
  repeat (case_match; simplify_eq/=);
    repeat split; try done; intros;
    rewrite ?lookup_insert_eq, ?lookup_insert_ne, ?lookup_delete_ne by done;
    try done; eauto.
Qed.

(** X6: the rejections that [put_image_json] decides before its checksum
    step (a body that parses to something false or to no object, a missing
    [id], a checksum header without exactly one colon) leave the store and
    the session as they were. *)
Theorem put_json_early_rejections image_id req w data :
  json_loads (req_data req) = Some data →
  (truthy data = false ∨ is_dict data = false →
   put_image_json image_id req w = (Ok (api_error "Invalid JSON" None), w)) ∧
  (truthy data = true → is_dict data = true → obj_get "id" data = None →
   put_image_json image_id req w
   = (Ok (api_error "Missing key `id' in JSON" None), w)) ∧
  (∀ c, truthy data = true → is_dict data = true →
        is_Some (obj_get "id" data) →
        req_checksum req = Some c → c ≠ "" → count_char ":" c ≠ 1%nat →
   put_image_json image_id req w
   = (Ok (api_error "Invalid checksum format" None), w)).
Proof.
  intros Hp. destruct w as [s sess]. repeat split.
  - intros Hbad. unfold put_image_json, read_local, bind, ret. rewrite Hp.
    destruct Hbad as [-> | ->]; [done|]. by rewrite orb_true_r.
  - intros Ht Hd Hid. unfold put_image_json, read_local, bind, ret.
    by rewrite Hp, Ht, Hd, Hid.
  - intros c Ht Hd [j Hid] Hc Hne Hcount.
    apply String.eqb_neq in Hne.
    assert (Hlen : (length (split_on ":" c) =? 2)%nat = false).
    { rewrite split_on_length. apply Nat.eqb_neq. lia. }
    unfold put_image_json, read_local, store_checksum, bind, ret.
    by rewrite Hp, Ht, Hd, Hid, Hc, Hne, Hlen.
Qed.

End put_json.

(** [put_image_checksum] past its four opening checks. *)
Lemma run_put_image_checksum image_id req w c cs :
  req_checksum req = Some c → c ≠ "" →
  sess_checksum (session w) = Some cs → cs ≠ [] →
  is_Some (st_json (store w) !! image_id) →
  is_Some (st_mark (store w) !! image_id) →
  count_char ":" c = 1%nat →
  put_image_checksum image_id req w =
    if bool_decide (c ∈ cs)
    then (Ok (response PTrue false),
          {| store := with_mark (delete image_id)
                        (with_checksum <[image_id := c]> (store w));
             session := session w |})
    else (Ok (api_error "Checksum mismatch" None),
          {| store := with_checksum <[image_id := c]> (store w);
             session := session w |}).
Proof.
  intros Hc Hne Hcs Hcsne Hjson Hmark Hcount.
  apply String.eqb_neq in Hne.
  destruct w as [s sess]. cbn [store session] in *.
  unfold_handlers. cbn [store session].
  rewrite Hc, Hne. cbn [store session]. rewrite Hcs. cbn [default].
  rewrite (bool_decide_eq_false_2 (cs = [])) by done.
  rewrite (bool_decide_eq_true_2 _ Hjson). cbn [negb store session].
  rewrite (bool_decide_eq_true_2 _ Hmark). cbn [negb store session].
  rewrite split_on_length, Hcount. cbn [Nat.eqb negb store session].
  rewrite Hcs. cbn [default]. unfold id.
  destruct (bool_decide (c ∈ cs)); reflexivity.
Qed.

(** X9: [put_image_checksum] removes an existing mark only if the header is
    one of the candidates kept in the session and has one colon; the reply is
    then the 200 one and the header is the stored checksum. *)
Theorem put_checksum_removes_mark_only_on_match image_id req w :
  is_Some (st_mark (store w) !! image_id) →
  st_mark (store (put_image_checksum image_id req w).2) !! image_id = None →
  ∃ c cs, req_checksum req = Some c ∧
          sess_checksum (session w) = Some cs ∧ c ∈ cs ∧
          count_char ":" c = 1%nat ∧
          (put_image_checksum image_id req w).1 = Ok (response PTrue false) ∧
          st_checksum (store (put_image_checksum image_id req w).2) !! image_id
            = Some c.
Proof.
  destruct w as [s sess]. cbn [store session]. intros [mk Hmark].
  unfold_handlers. cbn [store session].
  repeat (case_match; simplify_eq/=); try congruence.
  intros _.
  destruct (sess_checksum sess) as [cs|] eqn:Hcs; [|done].
  eexists _, cs. repeat split; try done.
  - match goal with Hin : negb (bool_decide (_ ∈ _)) = false |- _ =>
      apply negb_false_iff, bool_decide_eq_true in Hin end. done.
  - match goal with Hn : negb (_ =? 2)%nat = false |- _ =>
      apply negb_false_iff, Nat.eqb_eq in Hn;
      rewrite split_on_length in Hn end. lia.
  - apply lookup_insert_eq.
Qed.

(** X10: on a checksum mismatch [put_image_checksum] replies with the error
    and keeps the marks, but the client's checksum has already replaced the
    stored one. *)
Theorem put_checksum_mismatch_overwrites image_id req w c cs :
  req_checksum req = Some c → c ≠ "" →
  sess_checksum (session w) = Some cs → cs ≠ [] → c ∉ cs →
  is_Some (st_json (store w) !! image_id) →
  is_Some (st_mark (store w) !! image_id) →
  count_char ":" c = 1%nat →
  (put_image_checksum image_id req w).1 = Ok (api_error "Checksum mismatch" None) ∧
  st_mark (store (put_image_checksum image_id req w).2)
    = st_mark (store w) ∧
  st_checksum (store (put_image_checksum image_id req w).2) !! image_id = Some c.
Proof.
  intros Hc Hne Hcs Hcsne Hnin Hjson Hmark Hcount.
  rewrite (run_put_image_checksum _ _ _ c cs) by done.
  rewrite bool_decide_eq_false_2 by done. cbn.
  repeat split. apply lookup_insert_eq.
Qed.

Section upload.
Context `{Externals}.

Lemma run_put_json_root image_id req w data :
  json_loads (req_data req) = Some data →
  truthy data = true → is_dict data = true →
  obj_get "id" data = Some (JStr image_id) →
  obj_get "parent" data = None →
  sess_repository (session w) = None →
  (∀ c, req_checksum req = Some c → c ≠ "" → count_char ":" c = 1%nat) →
  (is_Some (st_json (store w) !! image_id) →
   is_Some (st_mark (store w) !! image_id)) →
  put_image_json image_id req w
  = (Ok (response PTrue false), after_put_json image_id req w).
Proof.
  intros Hp Ht Hd Hid Hpar Hsess Hfmt Hopen.
  destruct w as [s [sc sr]]. cbn [store session sess_repository] in *.
  subst sr.
  assert (Hcond : bool_decide (is_Some (st_json s !! image_id))
                  && negb (bool_decide (is_Some (st_mark s !! image_id)))
                  = false).
  { destruct (decide (is_Some (st_json s !! image_id))) as [Hj|Hj].
    - rewrite (bool_decide_eq_true_2 _ (Hopen Hj)). apply andb_false_r.
    - by rewrite (bool_decide_eq_false_2 _ Hj). }
  unfold after_put_json, checksum_after_header. cbn [store session].
  unfold_handlers. cbn [store session].
  rewrite Hp, Ht, Hd, Hid. cbn [negb orb].
  unfold differs_from. rewrite String.eqb_refl.
  destruct (req_checksum req) as [c|] eqn:Hc;
    [destruct (String.eqb_spec c "") as [->|Hne]|];
    rewrite ?split_on_length, ?(Hfmt _ eq_refl) by done;
    cbn [Nat.eqb negb store session sess_repository];
    rewrite Hpar; cbn [store session st_json st_mark with_checksum];
    by rewrite Hcond.
Qed.

Lemma after_stream_store image_id req w :
  st_layer (store (after_stream image_id req w))
    = <[image_id := req_data req]> (st_layer (store w)) ∧
  st_json (store (after_stream image_id req w)) = st_json (store w).
Proof.
  unfold after_stream. by destruct (_get_image_files_from_fobj _).
Qed.

Lemma run_upload_with_checksum image_id req1 req2 w data c :
  json_loads (req_data req1) = Some data →
  truthy data = true → is_dict data = true →
  obj_get "id" data = Some (JStr image_id) →
  obj_get "parent" data = None →
  sess_repository (session w) = None →
  (is_Some (st_json (store w) !! image_id) →
   is_Some (st_mark (store w) !! image_id)) →
  req_checksum req1 = Some c → c ≠ "" → count_char ":" c = 1%nat →
  c ∈ computed_csums (req_data req1) (req_data req2) →
  let w1 := (put_image_json image_id req1 w).2 in
  let w2 := (put_image_layer image_id req2 w1).2 in
  (put_image_json image_id req1 w).1 = Ok (response PTrue false) ∧
  (put_image_layer image_id req2 w1).1 = Ok (response PTrue false) ∧
  st_mark (store w2) !! image_id = None ∧
  st_json (store w2) !! image_id = Some (req_data req1) ∧
  st_layer (store w2) !! image_id = Some (req_data req2) ∧
  st_checksum (store w2) !! image_id = Some c.
Proof.
  intros Hp Ht Hd Hid Hpar Hsess Hopen Hc Hne Hcount Hin w1 w2.
  assert (Hrun1 : put_image_json image_id req1 w
                  = (Ok (response PTrue false), after_put_json image_id req1 w)).
  { eapply run_put_json_root; try done. intros c' Hc'. congruence. }
  subst w2 w1. rewrite Hrun1. cbn [fst snd].
  set (w1 := after_put_json image_id req1 w).
  assert (Hjson1 : st_json (store w1) !! image_id = Some (req_data req1)).
  { unfold w1, after_put_json. cbn. apply lookup_insert_eq. }
  assert (Hmark1 : is_Some (st_mark (store w1) !! image_id)).
  { unfold w1, after_put_json. cbn. rewrite lookup_insert_eq. eauto. }
  assert (Hck1 : st_checksum (store w1) !! image_id = Some c).
  { unfold w1, after_put_json, checksum_after_header. cbn. rewrite Hc.
    apply String.eqb_neq in Hne. rewrite Hne. apply lookup_insert_eq. }
  rewrite (run_put_image_layer image_id req2 w1 (req_data req1) Hjson1)
    by done.
  rewrite Hck1, bool_decide_eq_true_2 by done. cbn [fst snd store].
  destruct (after_stream_frame image_id req2 w1) as (Hm & Hk & _).
  destruct (after_stream_store image_id req2 w1) as (Hl & Hj).
  split; [done|]. split; [done|]. cbn [st_mark st_json st_layer st_checksum with_mark].
  rewrite Hm, Hj, Hl, Hk.
  repeat split; try done.
  - apply lookup_delete_eq.
  - apply lookup_insert_eq.
Qed.

(** X11: [PUT json] with a checksum header followed by [PUT layer], for an
    image that is not finalized and names no parent: when the header is one
    of the digests computed over the two bodies, both replies are 200 and
    afterwards the mark is gone and json, layer and checksum are the ones
    sent. *)
Theorem upload_with_checksum image_id req1 req2 w data c :
  json_loads (req_data req1) = Some data →
  truthy data = true → is_dict data = true →
  obj_get "id" data = Some (JStr image_id) →
  obj_get "parent" data = None →
  sess_repository (session w) = None →
  (is_Some (st_json (store w) !! image_id) →
   is_Some (st_mark (store w) !! image_id)) →
  req_checksum req1 = Some c → c ≠ "" → count_char ":" c = 1%nat →
  c ∈ computed_csums (req_data req1) (req_data req2) →
  let w1 := (put_image_json image_id req1 w).2 in
  let w2 := (put_image_layer image_id req2 w1).2 in
  (put_image_json image_id req1 w).1 = Ok (response PTrue false) ∧
  (put_image_layer image_id req2 w1).1 = Ok (response PTrue false) ∧
  st_mark (store w2) !! image_id = None ∧
  st_json (store w2) !! image_id = Some (req_data req1) ∧
  st_layer (store w2) !! image_id = Some (req_data req2) ∧
  st_checksum (store w2) !! image_id = Some c.
Proof. exact (run_upload_with_checksum image_id req1 req2 w data c). Qed.

(** X12: [PUT json] without checksum header, [PUT layer], then
    [PUT checksum]: after the layer the mark is still set and the session
    holds the computed digests; the checksum request stores the header and,
    when it is one of those digests, replies 200 and removes the mark;
    otherwise it replies with the mismatch error and keeps mark and
    session. *)
Theorem upload_with_deferred_checksum image_id req1 req2 req3 w data c :
  json_loads (req_data req1) = Some data →
  truthy data = true → is_dict data = true →
  obj_get "id" data = Some (JStr image_id) →
  obj_get "parent" data = None →
  sess_repository (session w) = None →
  (is_Some (st_json (store w) !! image_id) →
   is_Some (st_mark (store w) !! image_id)) →
  req_checksum req1 = None →
  req_checksum req3 = Some c → c ≠ "" → count_char ":" c = 1%nat →
  let csums := computed_csums (req_data req1) (req_data req2) in
  let w1 := (put_image_json image_id req1 w).2 in
  let w2 := (put_image_layer image_id req2 w1).2 in
  let w3 := (put_image_checksum image_id req3 w2).2 in
  (put_image_layer image_id req2 w1).1 = Ok (response PTrue false) ∧
  is_Some (st_mark (store w2) !! image_id) ∧
  sess_checksum (session w2) = Some csums ∧
  st_checksum (store w3) !! image_id = Some c ∧
  if bool_decide (c ∈ csums)
  then (put_image_checksum image_id req3 w2).1 = Ok (response PTrue false) ∧
       st_mark (store w3) !! image_id = None
  else (put_image_checksum image_id req3 w2).1
         = Ok (api_error "Checksum mismatch" None) ∧
       is_Some (st_mark (store w3) !! image_id) ∧
       session w3 = session w2.
Proof.
  intros Hp Ht Hd Hid Hpar Hsess Hopen Hc1 Hc Hne Hcount csums w1 w2 w3.
  assert (Hrun1 : put_image_json image_id req1 w
                  = (Ok (response PTrue false), after_put_json image_id req1 w)).
  { eapply run_put_json_root; try done. intros c' Hc'. congruence. }
  assert (Hw1 : w1 = after_put_json image_id req1 w) by (unfold w1; by rewrite Hrun1).
  assert (Hjson1 : st_json (store w1) !! image_id = Some (req_data req1)).
  { rewrite Hw1. unfold after_put_json. cbn. apply lookup_insert_eq. }
  assert (Hmark1 : is_Some (st_mark (store w1) !! image_id)).
  { rewrite Hw1. unfold after_put_json. cbn. rewrite lookup_insert_eq. eauto. }
  assert (Hck1 : st_checksum (store w1) !! image_id = None).
  { rewrite Hw1. unfold after_put_json, checksum_after_header. cbn. rewrite Hc1.
    apply lookup_delete_eq. }
  pose proof (run_put_image_layer image_id req2 w1 (req_data req1) Hjson1
                (λ _, Hmark1)) as Hrun2.
  cbv zeta in Hrun2. rewrite Hck1 in Hrun2. fold csums in Hrun2.
  destruct (after_stream_frame image_id req2 w1) as (Hm & Hk & Hs).
  destruct (after_stream_store image_id req2 w1) as (Hl & Hj).
  assert (Hcsne : csums ≠ []).
  { unfold csums, computed_csums. by destruct (compute_tarsum _ _). }
  assert (Hjson2 : is_Some (st_json (store w2) !! image_id)).
  { unfold w2. rewrite Hrun2. cbn [snd store]. rewrite Hj, Hjson1. eauto. }
  assert (Hmark2 : is_Some (st_mark (store w2) !! image_id)).
  { unfold w2. rewrite Hrun2. cbn [snd store]. by rewrite Hm. }
  assert (Hsess2 : sess_checksum (session w2) = Some csums).
  { unfold w2. by rewrite Hrun2. }
  pose proof (run_put_image_checksum image_id req3 w2 c csums Hc Hne Hsess2
                Hcsne Hjson2 Hmark2 Hcount) as Hrun3.
  split; [by rewrite Hrun2|]. split; [done|]. split; [done|].
  unfold w3. rewrite Hrun3.
  destruct (bool_decide (c ∈ csums)); cbn [fst snd store session
    st_checksum st_mark with_mark with_checksum].
  - split; [apply lookup_insert_eq|]. split; [done|]. apply lookup_delete_eq.
  - split; [apply lookup_insert_eq|]. done.
Qed.

End upload.

Lemma spec_step_absent st anc p :
  ds_info_map st !! p = None →
  ds_info_map (spec_diff_step st anc) !! p = None ∧
  ds_deleted (spec_diff_step st anc) !! p = ds_deleted st !! p ∧
  ds_changed (spec_diff_step st anc) !! p = ds_changed st !! p ∧
  ds_created (spec_diff_step st anc) !! p = ds_created st !! p.
Proof.
  intros Hp. unfold spec_diff_step.
  cbn [ds_info_map ds_deleted ds_changed ds_created].
  rewrite !lookup_union, !map_lookup_filter, Hp. cbn.
  by rewrite !(left_id_L None _).
Qed.

Lemma spec_fold_absent ancs : ∀ st p,
  ds_info_map st !! p = None →
  ds_info_map (foldl spec_diff_step st ancs) !! p = None ∧
  ds_deleted (foldl spec_diff_step st ancs) !! p = ds_deleted st !! p ∧
  ds_changed (foldl spec_diff_step st ancs) !! p = ds_changed st !! p ∧
  ds_created (foldl spec_diff_step st ancs) !! p = ds_created st !! p.
Proof.
  induction ancs as [|anc ancs IH]; intros st p Hp; [done|].
  cbn [foldl]. destruct (spec_step_absent st anc p Hp) as (H0 & H1 & H2 & H3).
  destruct (IH _ p H0) as (? & ? & ? & ?). repeat split; congruence.
Qed.

Lemma spec_step_lookups st anc p info :
  ds_info_map st !! p = Some info →
  ds_info_map (spec_diff_step st anc) !! p
    = (if decide (spec_stays anc (p, info)) then Some info else None) ∧
  ds_deleted (spec_diff_step st anc) !! p
    = (if decide (spec_to_deleted (p, info)) then Some info
       else ds_deleted st !! p) ∧
  ds_changed (spec_diff_step st anc) !! p
    = (if decide (spec_to_changed anc (p, info)) then Some info
       else ds_changed st !! p) ∧
  ds_created (spec_diff_step st anc) !! p
    = (if decide (spec_to_created anc (p, info)) then Some info
       else ds_created st !! p).
Proof.
  intros Ht. unfold spec_diff_step.
  cbn [ds_info_map ds_deleted ds_changed ds_created].
  rewrite !lookup_union, !map_lookup_filter, Ht. cbn [mbind option_bind].
  repeat split; case_decide; case_guard; try done; cbn.
  all: try by rewrite (left_id_L None _).
  - by destruct (ds_deleted st !! p).
  - by destruct (ds_changed st !! p).
  - by destruct (ds_created st !! p).
Qed.

Lemma spec_fold_present ancs : ∀ st p info,
  ds_info_map st !! p = Some info →
  ds_deleted st !! p = None → ds_changed st !! p = None →
  ds_created st !! p = None →
  let st' := foldl spec_diff_step st ancs in
  ds_deleted st' !! p
    = (if action_eqb (file_action p info ancs) DELETED then Some info else None) ∧
  ds_changed st' !! p
    = (if action_eqb (file_action p info ancs) CHANGED then Some info else None) ∧
  (ds_info_map st' ∪ ds_created st') !! p
    = (if action_eqb (file_action p info ancs) CREATED then Some info else None).
Proof.
  induction ancs as [|anc ancs IH]; intros st p info Ht Hd Hc Hr; cbv zeta.
  - cbn [foldl file_action action_eqb]. rewrite lookup_union, Ht, Hd, Hc, Hr. done.
  - cbn [foldl file_action].
    destruct (spec_step_lookups st anc p info Ht) as (H0 & H1 & H2 & H3).
    destruct (spec_cases anc p info)
      as [(Hv & ? & ? & ? & ?)
         |[(Hv & (a & Ha & Hda) & ? & ? & ? & ?)
          |[(Hv & (a & Ha & Hda) & ? & ? & ? & ?)
           |(Hv & Ha & ? & ? & ? & ?)]]];
      rewrite Hv, ?Ha, ?Hda; cbn [action_eqb];
      repeat (rewrite decide_True in * by done);
      repeat (rewrite decide_False in * by done).
    1-3: destruct (spec_fold_absent ancs _ p H0) as (G0 & G1 & G2 & G3);
         rewrite lookup_union, G0, G1, G2, G3, H1, H2, H3, ?Hd, ?Hc, ?Hr; done.
    apply IH; congruence.
Qed.

Section reads.
Context `{Externals}.

(** X17: the diff that [_get_image_diff] computes puts every path of the top
    inventory in the one dict that the rules of its docstring name
    ([file_action]), with the tail the top inventory maps it to, and holds no
    other path. *)
Theorem diff_follows_docstring image_id w data files invs :
  st_diff (store w) !! image_id = None →
  st_ancestry (store w) !! image_id = Some data →
  inventory (store w) image_id = Ok files →
  Forall2 (λ a fs, inventory (store w) a = Ok fs) (drop 1 data) invs →
  ∃ d w', _get_image_diff image_id w = (Ok d, w') ∧
    ∀ p,
      match _get_file_info_map files !! p with
      | None =>
          deleted d !! p = None ∧ changed d !! p = None ∧ created d !! p = None
      | Some info =>
          match file_action p info (_get_file_info_map <$> invs) with
          | DELETED => deleted d !! p = Some info ∧ changed d !! p = None ∧
                       created d !! p = None
          | CHANGED => deleted d !! p = None ∧ changed d !! p = Some info ∧
                       created d !! p = None
          | CREATED => deleted d !! p = None ∧ changed d !! p = None ∧
                       created d !! p = Some info
          end
      end.
Proof.
  intros Hmiss Hanc Hfiles Hall.
  destruct (run_get_image_diff image_id w data files invs Hmiss Hanc Hfiles Hall)
    as (w1 & _ & Hrun).
  eexists _, _. split; [exact Hrun|]. intros p.
  unfold spec_diff. cbn [deleted changed created].
  set (st0 := {| ds_info_map := _get_file_info_map files; ds_deleted := ∅;
                 ds_changed := ∅; ds_created := ∅ |}).
  destruct (_get_file_info_map files !! p) as [info|] eqn:Hp.
  - destruct (spec_fold_present (_get_file_info_map <$> invs) st0 p info)
      as (Hd & Hc & Hr); try done.
    cbv zeta in Hd, Hc, Hr. rewrite Hd, Hc, Hr.
    by destruct (file_action p info _).
  - destruct (spec_fold_absent (_get_file_info_map <$> invs) st0 p Hp)
      as (H0 & H1 & H2 & H3).
    rewrite lookup_union, H0, H1, H2, H3. done.
Qed.

(** X15: calling [_get_image_files] again in the world it left gives the
    same result and changes nothing; after a successful call the inventory is
    in the files cache. *)
Theorem get_image_files_twice image_id w r w1 :
  _get_image_files image_id w = (r, w1) →
  _get_image_files image_id w1 = (r, w1) ∧
  (∀ files, r = Ok files → st_files (store w1) !! image_id = Some files).
Proof.
  rewrite run_get_image_files.
  destruct (inventory (store w) image_id) as [files|e] eqn:Hinv.
  - intros [= <- <-].
    assert (Hc : st_files (store (remember_files image_id files w)) !! image_id
                 = Some files) by apply lookup_insert_eq.
    split; [|by intros ? [= <-]].
    rewrite run_get_image_files. unfold inventory at 1. rewrite Hc.
    f_equal. unfold remember_files at 1.
    rewrite with_files_insert_id by done. by destruct (remember_files _ _ _).
  - intros [= <- <-]. split; [|done].
    by rewrite run_get_image_files, Hinv.
Qed.

(** X16: once [_get_image_diff] has returned a diff, the diff is cached and a
    second call returns it without changing the world. *)
Theorem get_image_diff_twice image_id w d w' :
  _get_image_diff image_id w = (Ok d, w') →
  _get_image_diff image_id w' = (Ok d, w') ∧
  st_diff (store w') !! image_id = Some d.
Proof.
  intros Hrun.
  assert (Hhit : st_diff (store w') !! image_id = Some d).
  { unfold _get_image_diff in Hrun.
    destruct (st_diff (store w) !! image_id) as [d0|] eqn:Hc.
    - rewrite (run_bind_ok _ _ w (Some d0) w) in Hrun
        by (unfold _get_image_diff_cache, bind, get_store, ret; by rewrite Hc).
      by injection Hrun as <- <-.
    - rewrite (run_bind_ok _ _ w None w) in Hrun
        by (unfold _get_image_diff_cache, bind, get_store, ret; by rewrite Hc).
      unfold bind at 1 in Hrun.
      destruct (store_get_content st_ancestry image_id w) as [[data|e] w0];
        [|done].
      cbv zeta in Hrun. unfold bind at 1 in Hrun.
      destruct (_get_image_files image_id w0) as [[files|e] w2]; [|done].
      unfold bind at 1 in Hrun.
      destruct (for_each _ _ _ _) as [[st|e] w3]; [|done].
      injection Hrun as <- <-. apply lookup_insert_eq. }
  split; [|done]. unfold _get_image_diff.
  by rewrite (run_bind_ok _ _ w' (Some d) w')
    by (unfold _get_image_diff_cache, bind, get_store, ret; by rewrite Hhit).
Qed.

Lemma run_get_image_files_routed image_id req w :
  get_image_files image_id req w =
    if bool_decide (is_Some (st_mark (store w) !! image_id))
    then (Ok (api_error "Image is being uploaded, retry later" None), w)
    else if req_if_modified_since req
    then (Ok {| resp_code := 304; resp_payload := PEmpty;
                resp_cache_headers := true |}, w)
    else if match req_repository req with
            | Some repository => bool_decide (repository ∈ st_private (store w))
            | None => false
            end
    then (Ok (api_error "Image not found" (Some 404)), w)
    else match inventory (store w) image_id with
         | Ok files =>
             (Ok (response (PFiles files) true), remember_files image_id files w)
         | Raise IOError => (Ok (api_error "Image not found" (Some 404)), w)
         | Raise TarError =>
             (Ok (api_error "Layer format not supported" (Some 400)), w)
         | Raise e => (Raise e, w)
         end.
Proof.
  unfold get_image_files, require_completion.
  rewrite (run_bind_ok _ _ w _ w (run_store_exists st_mark image_id w)).
  destruct (bool_decide (is_Some (st_mark (store w) !! image_id))); [done|].
  unfold set_cache_headers.
  destruct (req_if_modified_since req); [done|].
  unfold get_image_files_body, try_handlers.
  destruct (req_repository req) as [repository|].
  - rewrite (run_bind_ok _ _ w
               (bool_decide (repository ∈ st_private (store w))) w)
      by reflexivity.
    destruct (bool_decide (repository ∈ st_private (store w))); [done|].
    unfold bind. rewrite run_get_image_files.
    by destruct (inventory (store w) image_id) as [files|[]].
  - rewrite (run_bind_ok _ _ w false w) by reflexivity.
    unfold bind. rewrite run_get_image_files.
    by destruct (inventory (store w) image_id) as [files|[]].
Qed.

(** X14: [get_image_files] as routed.  While the mark exists it replies with
    the retry-later error; else a request with [If-Modified-Since] gets 304,
    whether or not the image exists; else a private repository gets 404; else
    the reply follows the inventory: 200 with it (and it is cached), 404 on
    [IOError], 400 on [TarError], and any other exception leaves the
    handler. *)
Theorem get_files_outcomes image_id req w :
  get_image_files image_id req w =
    if bool_decide (is_Some (st_mark (store w) !! image_id))
    then (Ok (api_error "Image is being uploaded, retry later" None), w)
    else if req_if_modified_since req
    then (Ok {| resp_code := 304; resp_payload := PEmpty;
                resp_cache_headers := true |}, w)
    else if match req_repository req with
            | Some repository => bool_decide (repository ∈ st_private (store w))
            | None => false
            end
    then (Ok (api_error "Image not found" (Some 404)), w)
    else match inventory (store w) image_id with
         | Ok files =>
             (Ok (response (PFiles files) true), remember_files image_id files w)
         | Raise IOError => (Ok (api_error "Image not found" (Some 404)), w)
         | Raise TarError =>
             (Ok (api_error "Layer format not supported" (Some 400)), w)
         | Raise e => (Raise e, w)
         end.
Proof. exact (run_get_image_files_routed image_id req w). Qed.

(** X18: [put_image_layer] replies 404 when the image has no json and 409
    when its layer exists and its mark does not; in both cases nothing is
    written. *)
Theorem put_layer_rejections image_id req w :
  (st_json (store w) !! image_id = None →
   put_image_layer image_id req w
   = (Ok (api_error "Image not found" (Some 404)), w)) ∧
  (is_Some (st_json (store w) !! image_id) →
   is_Some (st_layer (store w) !! image_id) →
   st_mark (store w) !! image_id = None →
   put_image_layer image_id req w
   = (Ok (api_error "Image already exists" (Some 409)), w)).
Proof.
  unfold put_image_layer. split.
  - intros Hj.
    rewrite (run_bind_ok _ _ w None w); [done|].
    rewrite (run_try_except_caught _ _ _ _ IOError w); [done| |done].
    by apply run_bind_raise, run_get_content_None.
  - intros [j Hj] Hl Hm.
    rewrite (run_bind_ok _ _ w (Some j) w).
    2:{ apply run_try_except_ok.
        by rewrite (run_bind_ok _ _ w j w) by by apply run_get_content_Some. }
    rewrite (run_bind_ok _ _ w _ w) by apply run_store_exists.
    rewrite (run_bind_ok _ _ w _ w) by apply run_store_exists.
    rewrite (bool_decide_eq_true_2 _ Hl).
    by rewrite bool_decide_eq_false_2 by (rewrite Hm; intros [? ?]; done).
Qed.

End reads.

Section more.
Context `{Externals}.

(** X13: after a [PUT checksum] rejected for a mismatch, a second one with a
    checksum among the session's candidates replies 200, removes the mark and
    leaves that checksum stored. *)
Theorem put_checksum_retry image_id req_bad req_ok w cs c_bad c :
  sess_checksum (session w) = Some cs → cs ≠ [] →
  is_Some (st_json (store w) !! image_id) →
  is_Some (st_mark (store w) !! image_id) →
  req_checksum req_bad = Some c_bad → c_bad ≠ "" →
  count_char ":" c_bad = 1%nat → c_bad ∉ cs →
  req_checksum req_ok = Some c → c ≠ "" →
  count_char ":" c = 1%nat → c ∈ cs →
  let w1 := (put_image_checksum image_id req_bad w).2 in
  let w2 := (put_image_checksum image_id req_ok w1).2 in
  (put_image_checksum image_id req_bad w).1
    = Ok (api_error "Checksum mismatch" None) ∧
  (put_image_checksum image_id req_ok w1).1 = Ok (response PTrue false) ∧
  st_mark (store w2) !! image_id = None ∧
  st_checksum (store w2) !! image_id = Some c.
Proof.
  intros Hcs Hcsne Hjson Hmark Hb Hbne Hbcount Hbnin Hc Hne Hcount Hin w1 w2.
  subst w2 w1.
  rewrite (run_put_image_checksum _ req_bad w c_bad cs) by done.
  rewrite (bool_decide_eq_false_2 _ Hbnin). cbn [fst snd].
  rewrite (run_put_image_checksum _ req_ok _ c cs) by done.
  rewrite (bool_decide_eq_true_2 _ Hin). cbn.
  repeat split. - apply lookup_delete_eq. - apply lookup_insert_eq.
Qed.

Lemma put_layer_store_after image_id req w json_data :
  st_json (store w) !! image_id = Some json_data →
  (is_Some (st_layer (store w) !! image_id) →
   is_Some (st_mark (store w) !! image_id)) →
  let w' := (put_image_layer image_id req w).2 in
  st_layer (store w') !! image_id = Some (req_data req) ∧
  st_files (store w') !! image_id
    = match _get_image_files_from_fobj (req_data req) with
      | Ok files => Some files
      | Raise _ => st_files (store w) !! image_id
      end.
Proof.
  intros Hjson Hopen w'. subst w'.
  rewrite (run_put_image_layer _ _ _ _ Hjson Hopen).
  assert (Hst : st_layer (store (after_stream image_id req w)) !! image_id
                  = Some (req_data req) ∧
                st_files (store (after_stream image_id req w)) !! image_id
                  = match _get_image_files_from_fobj (req_data req) with
                    | Ok files => Some files
                    | Raise _ => st_files (store w) !! image_id
                    end).
  { unfold after_stream.
    destruct (_get_image_files_from_fobj (req_data req)); cbn;
      by rewrite !lookup_insert_eq. }
  destruct (st_checksum (store w) !! image_id) as [c|]; [|exact Hst].
  by destruct (bool_decide _).
Qed.

(** X19: past its two opening checks [put_image_layer] stores the body as the
    layer; the files cache then holds the body's inventory when it can be
    read, and is left as it was (the inventory of an earlier upload, if any)
    when it cannot. *)
Theorem put_layer_inventory_cache image_id req w json_data :
  st_json (store w) !! image_id = Some json_data →
  (is_Some (st_layer (store w) !! image_id) →
   is_Some (st_mark (store w) !! image_id)) →
  let w' := (put_image_layer image_id req w).2 in
  st_layer (store w') !! image_id = Some (req_data req) ∧
  st_files (store w') !! image_id
    = match _get_image_files_from_fobj (req_data req) with
      | Ok files => Some files
      | Raise _ => st_files (store w) !! image_id
      end.
Proof. exact (put_layer_store_after image_id req w json_data). Qed.

(** X21: after a [PUT json] that replied 200, [GET files] for that image
    replies with the retry-later error and changes nothing. *)
Theorem files_blocked_after_put_json image_id req w r w' req' :
  put_image_json image_id req w = (Ok r, w') →
  resp_code r = 200 →
  get_image_files image_id req' w'
  = (Ok (api_error "Image is being uploaded, retry later" None), w').
Proof.
  intros Hrun Hcode.
  destruct (put_json_200_inv _ _ _ _ _ Hrun Hcode) as (_ & _ & _ & _ & Hm & _).
  rewrite run_get_image_files_routed.
  by rewrite bool_decide_eq_true_2 by (rewrite Hm; eauto).
Qed.

(** X20: after [PUT json] with a matching checksum header and [PUT layer]
    with a body that reads as an archive, [GET files] replies 200 with the
    inventory of that body and changes nothing. *)
Theorem upload_then_files image_id req1 req2 req3 w data c files :
  json_loads (req_data req1) = Some data →
  truthy data = true → is_dict data = true →
  obj_get "id" data = Some (JStr image_id) →
  obj_get "parent" data = None →
  sess_repository (session w) = None →
  (is_Some (st_json (store w) !! image_id) →
   is_Some (st_mark (store w) !! image_id)) →
  req_checksum req1 = Some c → c ≠ "" → count_char ":" c = 1%nat →
  c ∈ computed_csums (req_data req1) (req_data req2) →
  _get_image_files_from_fobj (req_data req2) = Ok files →
  req_if_modified_since req3 = false → req_repository req3 = None →
  let w1 := (put_image_json image_id req1 w).2 in
  let w2 := (put_image_layer image_id req2 w1).2 in
  get_image_files image_id req3 w2 = (Ok (response (PFiles files) true), w2).
Proof.
  intros Hp Ht Hd Hid Hpar Hsess Hopen Hc Hne Hcount Hin Hfiles Hims Hrepo
    w1 w2.
  destruct (run_upload_with_checksum image_id req1 req2 w data c)
    as (Hr1 & _ & Hmark & _); try done.
  fold w1 in Hmark. fold w2 in Hmark.
  assert (Hrun1 : put_image_json image_id req1 w
                  = (Ok (response PTrue false), w1)).
  { unfold w1. rewrite <- Hr1. by destruct (put_image_json image_id req1 w). }
  destruct (put_json_200_inv _ _ _ _ _ Hrun1 eq_refl)
    as (_ & _ & _ & Hj1 & Hm1 & _).
  destruct (put_layer_store_after image_id req2 w1 (req_data req1) Hj1)
    as (_ & Hcache); [rewrite Hm1; eauto|].
  fold w2 in Hcache. rewrite Hfiles in Hcache.
  rewrite run_get_image_files_routed.
  rewrite bool_decide_eq_false_2 by (rewrite Hmark; intros [? ?]; done).
  rewrite Hims, Hrepo. unfold inventory. rewrite Hcache.
  f_equal. unfold remember_files. rewrite with_files_insert_id by done.
  by destruct w2.
Qed.

End more.

(** ** The further properties at concrete inputs *)

Lemma files_from_fobj_known_types_witness :
  ∃ files, @_get_image_files_from_fobj example_externals "layer.tar" = Ok files ∧
    fi_path <$> files
      = (λ m, (strip_whiteout (dot_normalize (ti_name m)) false).1)
          <$> filter (λ m, startswith "/.wh."
                (strip_whiteout (dot_normalize (ti_name m)) false).1 = false)
               [mkTarInfo "./foo" tarfile.REGTYPE 3 0 420 0 0;
                mkTarInfo "./.wh.bar" tarfile.REGTYPE 0 0 420 0 0].
Proof.
  apply (@files_from_fobj_known_types example_externals "layer.tar"
           [mkTarInfo "./foo" tarfile.REGTYPE 3 0 420 0 0;
            mkTarInfo "./.wh.bar" tarfile.REGTYPE 0 0 420 0 0]).
  - reflexivity.
  - repeat (constructor; [exists "f"; vm_compute; reflexivity|]).
    constructor.
Defined.

Lemma files_from_fobj_raises_witness :
  @read_archive example_externals "pipe.tar" = Raise (KeyError "6") ∨
  ∃ members m, @read_archive example_externals "pipe.tar" = Ok members ∧
       m ∈ members ∧
       KeyError "6" = KeyError (ti_type m) ∧ FILE_TYPES !! ti_type m = None ∧
       startswith "/.wh." (strip_whiteout (dot_normalize (ti_name m)) false).1
         = false.
Proof.
  apply (@files_from_fobj_raises example_externals "pipe.tar" (KeyError "6")).
  vm_compute. reflexivity.
Defined.

Lemma entry_copies_member_witness :
  fi_deleted (tar_entry (regular_member "./.wh.bar") "/bar" "f" true) = true
  ↔ startswith "/.wh." (dot_normalize "./.wh.bar") = true.
Proof.
  apply (entry_copies_member (regular_member "./.wh.bar")
           (tar_entry (regular_member "./.wh.bar") "/bar" "f" true)).
  vm_compute. reflexivity.
Defined.

Lemma put_json_early_rejections_witness :
  @put_image_json example_externals "a"
     (mkRequest manifest_a (Some "abc") false None)
     (mkWorld finalized_a no_session)
  = (Ok (api_error "Invalid checksum format" None),
     mkWorld finalized_a no_session).
Proof.
  refine (proj2 (proj2
    (@put_json_early_rejections example_externals "a"
       (mkRequest manifest_a (Some "abc") false None)
       (mkWorld finalized_a no_session) (JObj [("id", JStr "a")]) _))
    "abc" _ _ _ _ _ _).
  - reflexivity.
  - reflexivity.
  - reflexivity.
  - exists (JStr "a"). reflexivity.
  - reflexivity.
  - discriminate.
  - vm_compute. discriminate.
Defined.

Lemma put_json_success_witness :
  ∃ data, @json_loads example_externals manifest_a = Some data ∧
    obj_get "id" data = Some (JStr "a") ∧
    st_json (store (after_put_json "a" (body_request manifest_a)
                      (mkWorld empty_store no_session))) !! "a"
      = Some manifest_a ∧
    st_mark (store (after_put_json "a" (body_request manifest_a)
                      (mkWorld empty_store no_session))) !! "a"
      = Some "true" ∧
    st_ancestry (store (after_put_json "a" (body_request manifest_a)
                          (mkWorld empty_store no_session))) !! "a"
      = Some ("a" :: @parent_ancestry example_externals empty_store data) ∧
    st_checksum (store (after_put_json "a" (body_request manifest_a)
                          (mkWorld empty_store no_session))) !! "a"
      = None.
Proof.
  apply (@put_json_success example_externals "a" (body_request manifest_a)
           (mkWorld empty_store no_session) (response PTrue false)
           (after_put_json "a" (body_request manifest_a)
              (mkWorld empty_store no_session))).
  - vm_compute. reflexivity.
  - reflexivity.
Defined.

Lemma put_checksum_removes_mark_only_on_match_witness :
  ∃ c cs, req_checksum (checksum_request "sha256:aa") = Some c ∧
          sess_checksum (session awaiting_checksum_a) = Some cs ∧ c ∈ cs ∧
          count_char ":" c = 1%nat ∧
          (put_image_checksum "a" (checksum_request "sha256:aa")
             awaiting_checksum_a).1 = Ok (response PTrue false) ∧
          st_checksum (store (put_image_checksum "a"
                                (checksum_request "sha256:aa")
                                awaiting_checksum_a).2) !! "a" = Some c.
Proof.
  apply (put_checksum_removes_mark_only_on_match "a"
           (checksum_request "sha256:aa") awaiting_checksum_a).
  - exists "true". vm_compute. reflexivity.
  - vm_compute. reflexivity.
Defined.

Lemma put_checksum_mismatch_overwrites_witness :
  (put_image_checksum "a" (checksum_request "sha256:zz")
     awaiting_checksum_a).1 = Ok (api_error "Checksum mismatch" None) ∧
  st_mark (store (put_image_checksum "a" (checksum_request "sha256:zz")
                    awaiting_checksum_a).2)
    = st_mark (store awaiting_checksum_a) ∧
  st_checksum (store (put_image_checksum "a" (checksum_request "sha256:zz")
                        awaiting_checksum_a).2) !! "a" = Some "sha256:zz".
Proof.
  apply (put_checksum_mismatch_overwrites "a" (checksum_request "sha256:zz")
           awaiting_checksum_a "sha256:zz"
           ["sha256:aa"; "tarsum+sha256:bb"]).
  - reflexivity.
  - discriminate.
  - reflexivity.
  - discriminate.
  - refine (proj1 (bool_decide_eq_false _) _). vm_compute. reflexivity.
  - exists manifest_a. vm_compute. reflexivity.
  - exists "true". vm_compute. reflexivity.
  - reflexivity.
Defined.

Lemma put_checksum_retry_witness :
  (put_image_checksum "a" (checksum_request "sha256:aa")
     (put_image_checksum "a" (checksum_request "sha256:zz")
        awaiting_checksum_a).2).1 = Ok (response PTrue false).
Proof.
  refine (proj1 (proj2
    (@put_checksum_retry "a" (checksum_request "sha256:zz")
       (checksum_request "sha256:aa") awaiting_checksum_a
       ["sha256:aa"; "tarsum+sha256:bb"] "sha256:zz" "sha256:aa"
       _ _ _ _ _ _ _ _ _ _ _ _))).
  - reflexivity.
  - discriminate.
  - exists manifest_a. vm_compute. reflexivity.
  - exists "true". vm_compute. reflexivity.
  - reflexivity.
  - discriminate.
  - reflexivity.
  - refine (proj1 (bool_decide_eq_false _) _). vm_compute. reflexivity.
  - reflexivity.
  - discriminate.
  - reflexivity.
  - refine (proj1 (bool_decide_eq_true _) _). vm_compute. reflexivity.
Defined.

Lemma upload_with_checksum_witness :
  st_mark (store (@put_image_layer example_externals "a"
                    (body_request "layer.tar")
                    (@put_image_json example_externals "a"
                       (mkRequest manifest_a (Some "sha256:aa") false None)
                       (mkWorld empty_store no_session)).2).2) !! "a" = None.
Proof.
  refine (proj1 (proj2 (proj2
    (@upload_with_checksum example_externals "a"
       (mkRequest manifest_a (Some "sha256:aa") false None)
       (body_request "layer.tar") (mkWorld empty_store no_session)
       (JObj [("id", JStr "a")]) "sha256:aa" _ _ _ _ _ _ _ _ _ _ _)))).
  - reflexivity.
  - reflexivity.
  - reflexivity.
  - reflexivity.
  - reflexivity.
  - reflexivity.
  - intros [j Hj]. vm_compute in Hj. discriminate Hj.
  - reflexivity.
  - discriminate.
  - reflexivity.
  - refine (proj1 (bool_decide_eq_true _) _). vm_compute. reflexivity.
Defined.

Lemma upload_with_deferred_checksum_witness :
  sess_checksum
    (session (@put_image_layer example_externals "a"
                (body_request "layer.tar")
                (@put_image_json example_externals "a"
                   (body_request manifest_a)
                   (mkWorld empty_store no_session)).2).2)
  = Some (@computed_csums example_externals manifest_a "layer.tar").
Proof.
  refine (proj1 (proj2 (proj2
    (@upload_with_deferred_checksum example_externals "a"
       (body_request manifest_a) (body_request "layer.tar")
       (checksum_request "tarsum+sha256:bb") (mkWorld empty_store no_session)
       (JObj [("id", JStr "a")]) "tarsum+sha256:bb"
       _ _ _ _ _ _ _ _ _ _ _)))).
  - reflexivity.
  - reflexivity.
  - reflexivity.
  - reflexivity.
  - reflexivity.
  - reflexivity.
  - intros [j Hj]. vm_compute in Hj. discriminate Hj.
  - reflexivity.
  - reflexivity.
  - discriminate.
  - reflexivity.
Defined.

Lemma get_image_files_twice_witness :
  @_get_image_files example_externals "a"
    (@_get_image_files example_externals "a"
       (mkWorld single_layer no_session)).2
  = @_get_image_files example_externals "a" (mkWorld single_layer no_session).
Proof.
  refine (eq_trans (proj1
    (@get_image_files_twice example_externals "a"
       (mkWorld single_layer no_session)
       (@_get_image_files example_externals "a"
          (mkWorld single_layer no_session)).1
       (@_get_image_files example_externals "a"
          (mkWorld single_layer no_session)).2 _)) _).
  - vm_compute. reflexivity.
  - vm_compute. reflexivity.
Defined.

Lemma get_image_diff_twice_witness :
  st_diff (store (@_get_image_diff example_externals "C"
                    (mkWorld three_layers no_session)).2) !! "C"
  = Some diff_of_C.
Proof.
  refine (proj2
    (@get_image_diff_twice example_externals "C"
       (mkWorld three_layers no_session) diff_of_C
       (@_get_image_diff example_externals "C"
          (mkWorld three_layers no_session)).2 _)).
  vm_compute. reflexivity.
Defined.

Lemma diff_follows_docstring_witness :
  ∃ d w', @_get_image_diff example_externals "C"
            (mkWorld three_layers no_session) = (Ok d, w') ∧
    ∀ p,
      match _get_file_info_map files_C !! p with
      | None =>
          deleted d !! p = None ∧ changed d !! p = None ∧ created d !! p = None
      | Some info =>
          match file_action p info (_get_file_info_map <$> [files_B; files_A])
          with
          | DELETED => deleted d !! p = Some info ∧ changed d !! p = None ∧
                       created d !! p = None
          | CHANGED => deleted d !! p = None ∧ changed d !! p = Some info ∧
                       created d !! p = None
          | CREATED => deleted d !! p = None ∧ changed d !! p = None ∧
                       created d !! p = Some info
          end
      end.
Proof.
  apply (@diff_follows_docstring example_externals "C"
           (mkWorld three_layers no_session) ["C"; "B"; "A"] files_C
           [files_B; files_A]).
  - vm_compute. reflexivity.
  - vm_compute. reflexivity.
  - vm_compute. reflexivity.
  - constructor; [vm_compute; reflexivity|].
    constructor; [vm_compute; reflexivity|].
    constructor.
Defined.

Lemma put_layer_inventory_cache_witness :
  st_layer (store (@put_image_layer example_externals "a"
                     (body_request "not a tar")
                     (mkWorld uploading_a no_session)).2) !! "a"
    = Some "not a tar" ∧
  st_files (store (@put_image_layer example_externals "a"
                     (body_request "not a tar")
                     (mkWorld uploading_a no_session)).2) !! "a"
    = st_files uploading_a !! "a".
Proof.
  apply (@put_layer_inventory_cache example_externals "a"
           (body_request "not a tar") (mkWorld uploading_a no_session)
           manifest_a).
  - vm_compute. reflexivity.
  - intros _. exists "true". vm_compute. reflexivity.
Defined.

Lemma files_blocked_after_put_json_witness :
  @get_image_files example_externals "a" (body_request "")
    (after_put_json "a" (body_request manifest_a)
       (mkWorld empty_store no_session))
  = (Ok (api_error "Image is being uploaded, retry later" None),
     after_put_json "a" (body_request manifest_a)
       (mkWorld empty_store no_session)).
Proof.
  apply (@files_blocked_after_put_json example_externals "a"
           (body_request manifest_a) (mkWorld empty_store no_session)
           (response PTrue false)).
  - vm_compute. reflexivity.
  - reflexivity.
Defined.

Lemma upload_then_files_witness :
  (@get_image_files example_externals "a" (body_request "")
     (@put_image_layer example_externals "a" (body_request "layer.tar")
        (@put_image_json example_externals "a"
           (mkRequest manifest_a (Some "sha256:aa") false None)
           (mkWorld empty_store no_session)).2).2).1
  = Ok (response
          (PFiles [tar_entry (mkTarInfo "./foo" "0" 3 0 420 0 0)
                             "/foo" "f" false;
                   tar_entry (regular_member "./.wh.bar") "/bar" "f" true])
          true).
Proof.
  refine (f_equal fst
    (@upload_then_files example_externals "a"
       (mkRequest manifest_a (Some "sha256:aa") false None)
       (body_request "layer.tar") (body_request "")
       (mkWorld empty_store no_session)
       (JObj [("id", JStr "a")]) "sha256:aa" _
       _ _ _ _ _ _ _ _ _ _ _ _ _ _)).
  - reflexivity.
  - reflexivity.
  - reflexivity.
  - reflexivity.
  - reflexivity.
  - reflexivity.
  - intros [j Hj]. vm_compute in Hj. discriminate Hj.
  - reflexivity.
  - discriminate.
  - reflexivity.
  - refine (proj1 (bool_decide_eq_true _) _). vm_compute. reflexivity.
  - vm_compute. reflexivity.
  - reflexivity.
  - reflexivity.
Defined.
